(** * Human-in-the-loop tool reconciliation: [src/utils.ts]

    A shallow embedding of the three exported helpers of [utils.ts]
    ([cleanupMessages], [processToolCalls], and [formatFlightResults] with
    its two private formatters) and of the calls the two agents of the
    server module make to them.

    Conventions.
    - JavaScript strings are Rocq strings holding the UTF-8 bytes of the
      text.  Every string operation of [utils.ts] searches for, or splits
      on, ASCII text only, so it acts the same on UTF-8 bytes as on UTF-16
      code units.
    - JavaScript numbers are modelled by [Z]: the integer-valued numbers
      that print in plain decimal.  [utils.ts] does no arithmetic on a
      number it receives, it only tests and prints them.
    - A property that may be missing from an object has an [option] type
      ([None] is JavaScript's [undefined]).
    - The flight search result is seen through the cast that
      [formatFlightResults] makes: a record in which every property is
      there with the type the cast declares, or is missing.  A result that
      holds a property of another type is outside this view, and nothing
      is said of it.
    - A call that may throw returns a [Completion].
    - The callbacks of one [Promise.all] run interleaved, so the effects
      of a run are recorded callback by callback, each callback's own in
      program order, and no order is recorded between two callbacks. *)

From Stdlib Require Import ZArith Lia Ascii String DecimalString.
From stdpp Require Import base option list gmap strings.

Set Warnings "-register-all".
#[local] Set Default Proof Using "Type".

Open Scope string_scope.

(** ** JavaScript values and completions *)

(** The JSON-shaped values that travel as tool inputs and outputs. *)
Inductive JsValue : Type :=
| JUndefined
| JNull
| JBool (b : bool)
| JNumber (n : Z)
| JString (s : string)
| JArray (elements : list JsValue)
| JObject (properties : list (string * JsValue)).

(** [ToBoolean]: what [!v] and [v || w] test. *)
Definition truthy (v : JsValue) : bool :=
  match v with
  | JUndefined | JNull => false
  | JBool b => b
  | JNumber n => negb (n =? 0)%Z
  | JString s => negb (String.eqb s "")
  | JArray _ | JObject _ => true
  end.

(** [v === s] for a string constant [s]. *)
Definition strict_eq_string (v : JsValue) (s : string) : bool :=
  match v with
  | JString t => String.eqb t s
  | _ => false
  end.

(** [o === s] for a property that may be missing. *)
Definition is_string (o : option string) (s : string) : bool :=
  match o with
  | Some t => String.eqb t s
  | None => false
  end.

(** [!!s] for a string property that may be missing. *)
Definition truthy_string (o : option string) : bool :=
  match o with
  | Some s => negb (String.eqb s "")
  | None => false
  end.

(** The outcome of evaluating code that may throw.  The thrown value is not
    recorded: no function of [utils.ts] catches an exception. *)
Inductive Completion (A : Type) : Type :=
| Normal (a : A)
| Throw.
Arguments Normal {A} a.
Arguments Throw {A}.

(** The property names every plain object inherits from [Object.prototype];
    [key in obj] and [obj[key]] see them on any object literal. *)
Definition Object_prototype_keys : list string :=
  [ "constructor"; "__defineGetter__"; "__defineSetter__"; "hasOwnProperty";
    "__lookupGetter__"; "__lookupSetter__"; "isPrototypeOf";
    "propertyIsEnumerable"; "toString"; "valueOf"; "__proto__";
    "toLocaleString" ].

Definition inherited (key : string) : bool :=
  existsb (String.eqb key) Object_prototype_keys.

(** [s.startsWith(prefix)] *)
Fixpoint startsWith (s prefix : string) {struct prefix} : bool :=
  match prefix, s with
  | EmptyString, _ => true
  | String c prefix', String d s' => Ascii.eqb c d && startsWith s' prefix'
  | String _ _, EmptyString => false
  end.

(** ** Messages of the [ai] package *)

Inductive Role : Type := system | user | assistant.

(** One part of a message.  The record has the properties [utils.ts] reads
    or copies; [rest] holds every other property of the part (the text of a
    text part, provider metadata, ...). *)
Module UIPart.
Record t : Type := mk {
  type : string;
  toolCallId : option string;
  state : option string;
  input : JsValue;
  output : JsValue;
  errorText : option string;
  rest : list (string * JsValue)
}.

(** [{ ...part, output: result }] *)
Definition with_output (part : t) (result : JsValue) : t :=
  {| type := type part; toolCallId := toolCallId part; state := state part;
     input := input part; output := result; errorText := errorText part;
     rest := rest part |}.
End UIPart.

Module UIMessage.
Record t : Type := mk {
  id : string;
  role : Role;
  metadata : JsValue;
  parts : option (list UIPart.t)
}.

(** [{ ...message, parts: processedParts }] *)
Definition with_parts (message : t) (processedParts : list UIPart.t) : t :=
  {| id := id message; role := role message; metadata := metadata message;
     parts := Some processedParts |}.
End UIMessage.

(** [isStaticToolUIPart] of the [ai] package: the type tag begins with
    ["tool-"] (a dynamic tool part has the tag ["dynamic-tool"]). *)
Definition isStaticToolUIPart (part : UIPart.t) : bool :=
  startsWith (UIPart.type part) "tool-".

(** ** [cleanupMessages] *)

(** The callback of [message.parts.some(...)]. *)
Definition isIncompleteToolCall (part : UIPart.t) : bool :=
  if negb (isStaticToolUIPart part) then false
  else
    is_string (UIPart.state part) "input-streaming"
    || (is_string (UIPart.state part) "input-available"
        && negb (truthy (UIPart.output part))
        && negb (truthy_string (UIPart.errorText part))).

(** The callback of [messages.filter(...)]. *)
Definition keepMessage (message : UIMessage.t) : bool :=
  match UIMessage.parts message with
  | None => true
  | Some parts =>
      let hasIncompleteToolCall := existsb isIncompleteToolCall parts in
      negb hasIncompleteToolCall
  end.

Definition cleanupMessages (messages : list UIMessage.t) : list UIMessage.t :=
  List.filter keepMessage messages.

(** *** The sanitizer as the specification words it *)

(** An [output] that is not set: the part has none, or has one of the
    values that stand for none ([null], [false], [0], the empty text).  An
    [errorText] that is not set: the part has none, or an empty one.  The
    [ai] package types a tool part in state [input-available] with neither
    property, so on its parts "not set" is "absent". *)
Inductive Unset : JsValue → Prop :=
| Unset_undefined : Unset JUndefined
| Unset_null : Unset JNull
| Unset_false : Unset (JBool false)
| Unset_zero : Unset (JNumber 0)
| Unset_empty : Unset (JString "").

Definition NoOutput (part : UIPart.t) : Prop := Unset (UIPart.output part).

Definition NoErrorText (part : UIPart.t) : Prop :=
  UIPart.errorText part = None ∨ UIPart.errorText part = Some "".

Definition IncompletePart (part : UIPart.t) : Prop :=
  isStaticToolUIPart part = true
  ∧ (UIPart.state part = Some "input-streaming"
     ∨ (UIPart.state part = Some "input-available"
        ∧ NoOutput part ∧ NoErrorText part)).

Definition HasIncompletePart (message : UIMessage.t) : Prop :=
  ∃ parts part,
    UIMessage.parts message = Some parts ∧ part ∈ parts ∧ IncompletePart part.

(** [Sanitized ms ms']: [ms'] is [ms] with exactly the messages that have
    an incomplete part taken out, the others in place. *)
Inductive Sanitized : list UIMessage.t → list UIMessage.t → Prop :=
| Sanitized_nil : Sanitized [] []
| Sanitized_drop m ms ms' :
    HasIncompletePart m → Sanitized ms ms' → Sanitized (m :: ms) ms'
| Sanitized_keep m ms ms' :
    ¬ HasIncompletePart m → Sanitized ms ms' → Sanitized (m :: ms) (m :: ms').

(** ** The flight search result *)

(** The shape [formatFlightResults] casts its argument to.  The cast checks
    nothing, so every property may be missing. *)
Module Segment.
Record t : Type := mk {
  departure : option string;
  arrival : option string;
  carrier : option string;
  flightNumber : option string;
  duration : option string;
  stops : option Z
}.
End Segment.

Module Itinerary.
Record t : Type := mk {
  duration : option string;
  segments : option (list Segment.t)
}.
End Itinerary.

Module Price.
Record t : Type := mk {
  total : option string;
  currency : option string
}.
End Price.

Module Offer.
Record t : Type := mk {
  offerId : option string;
  price : option Price.t;
  airlines : option (list string);
  itineraries : option (list Itinerary.t);
  seatsAvailable : option Z
}.
End Offer.

Module Dictionaries.
Record t : Type := mk {
  carriers : option (gmap string string)
}.
End Dictionaries.

Module FlightData.
Record t : Type := mk {
  totalOffers : option Z;
  offers : option (list Offer.t);
  dictionaries : option Dictionaries.t
}.
End FlightData.

(** The argument of [formatFlightResults], a JSON value, as far as the
    function tells values apart: [null] or a value that is no object, or an
    object (an array is one) with its properties seen through the cast,
    each there with its declared type or missing. *)
Inductive Primitive : Type :=
| PNull
| PBoolean (b : bool)
| PNumber (n : Z)
| PString (s : string).

Inductive Unknown : Type :=
| NotObject (value : Primitive)
| Object (flightData : FlightData.t).

(** The string [formatFlightResults] returns: the text it builds, or
    whatever [JSON.stringify] prints for its argument. *)
Inductive Output : Type :=
| Text (text : string)
| JSON_stringify (data : Unknown).

(** ** String helpers of the JavaScript library *)

(** [s.slice(n)] *)
Fixpoint slice_from (n : nat) (s : string) : string :=
  match n, s with
  | O, _ => s
  | S n', String _ s' => slice_from n' s'
  | S _, EmptyString => EmptyString
  end.

(** [s.replace(pattern, replacement)] for a string [pattern] and a
    [replacement] without [$]: the first occurrence only. *)
Fixpoint replace (pattern replacement s : string) : string :=
  if startsWith s pattern
  then replacement +:+ slice_from (String.length pattern) s
  else match s with
       | EmptyString => EmptyString
       | String c s' => String c (replace pattern replacement s')
       end.

(** [s.includes(t)] *)
Fixpoint includes (s t : string) : bool :=
  startsWith s t
  || match s with
     | EmptyString => false
     | String _ s' => includes s' t
     end.

Section Utils.

(** ** [processToolCalls] *)

(** What is not in [utils.ts]: the model messages of the [ai] package and
    its projection [convertToModelMessages], whose promise resolves with
    the projected list or rejects (the package rejects a list it cannot
    project); the two decision tokens of [./shared]; and what calling a
    member of [Object.prototype] as a plain function does on the host. *)
Context {ModelMessage : Type}.
Variable convertToModelMessages :
  list UIMessage.t → Completion (list ModelMessage).

Record Approval : Type := { YES : string; NO : string }.
Variable APPROVAL : Approval.

(** [ToolCallOptions], the second argument of an executor. *)
Record ToolCallOptions : Type := {
  ctx_messages : list ModelMessage;
  ctx_toolCallId : option string
}.

(** An executor of the registry; its promise resolves or rejects. *)
Definition Executor : Type := JsValue → ToolCallOptions → Completion JsValue.

Variable Object_prototype_call : string → Executor.

(** The chunk [processToolCalls] writes to the stream. *)
Record UIMessageChunk : Type := {
  chunk_type : string;
  chunk_toolCallId : option string;
  chunk_output : JsValue
}.

(** What a callback does to the outside: a call through the registry, a
    chunk written. *)
Inductive Effect : Type :=
| Invoke (toolName : string) (args : JsValue) (options : ToolCallOptions)
| Written (chunk : UIMessageChunk).

(** One asynchronous callback: its effects, in program order, and how its
    promise settles. *)
Definition Async (A : Type) : Type := list Effect * Completion A.

#[local] Instance Completion_ret : MRet Completion := λ A a, Normal a.
#[local] Instance Completion_bind : MBind Completion := λ A B k c,
  match c with
  | Normal a => k a
  | Throw => Throw
  end.

#[local] Instance Async_ret : MRet Async := λ A a, ([], Normal a).
#[local] Instance Async_bind : MBind Async := λ A B k m,
  match m with
  | (effects, Normal a) =>
      let '(effects', r) := k a in ((effects ++ effects')%list, r)
  | (effects, Throw) => (effects, Throw)
  end.

(** [await promise] for a promise of the outside that does nothing that
    is recorded here. *)
Definition await {A : Type} (promise : Completion A) : Async A :=
  ([], promise).

(** [await toolInstance(args, options)] *)
Definition call (toolName : string) (toolInstance : Executor)
    (args : JsValue) (options : ToolCallOptions) : Async JsValue :=
  ([Invoke toolName args options], toolInstance args options).

(** [dataStream.write(chunk)] *)
Definition write (chunk : UIMessageChunk) : Async unit :=
  ([Written chunk], Normal tt).

(** [await Promise.all(promises)]: every callback has been started and runs
    to its end whatever the others do; the whole rejects when one rejects.
    The callbacks run interleaved at their awaits, in an order that depends
    on when the executors answer.  So what the callbacks did is kept apart,
    callback by callback in the order of the list, and no order is recorded
    between what two callbacks did. *)
Fixpoint Promise_all {E A : Type} (promises : list (E * Completion A))
    : list E * Completion (list A) :=
  match promises with
  | [] => ([], Normal [])
  | (effects, r) :: promises' =>
      let '(effects', rs) := Promise_all promises' in
      (effects :: effects',
       match r, rs with
       | Normal a, Normal l => Normal (a :: l)
       | _, _ => Throw
       end)
  end.

(** The registry: a plain object.  An own property holds an executor, or
    (against its declared type) a falsy value, [None]. *)
Abbreviation Executions := (gmap string (option Executor)).

(** [key in obj] *)
Definition in_object (key : string) (obj : Executions) : bool :=
  bool_decide (is_Some (obj !! key)) || inherited key.

Definition isValidToolName (key : string) (obj : Executions) : bool :=
  in_object key obj.

(** What [obj[key]] is when it is truthy: a function, or a value that
    cannot be called.  Of the members of [Object.prototype] all are
    functions but [__proto__], an accessor that answers the prototype of the
    object, itself an object. *)
Inductive Member : Type :=
| Callable (toolInstance : Executor)
| NotCallable.

(** [obj[key]], [None] when the value is falsy. *)
Definition get (obj : Executions) (key : string) : option Member :=
  match obj !! key with
  | Some own => Callable <$> own
  | None =>
      if inherited key
      then Some (if String.eqb key "__proto__" then NotCallable
                 else Callable (Object_prototype_call key))
      else None
  end.

(** [part.type.replace("tool-", "")] *)
Definition toolName_of (part : UIPart.t) : string :=
  replace "tool-" "" (UIPart.type part).

(** The callback of [parts.map(...)].  The arguments of the call of
    [toolInstance] are evaluated before the call is made, the projection
    awaited among them: when it rejects nothing is called, and when
    [toolInstance] turns out to be no function the call throws. *)
Definition processPart (messages : list UIMessage.t) (executions : Executions)
    (part : UIPart.t) : Async UIPart.t :=
  if negb (isStaticToolUIPart part) then mret part
  else
    let toolName := toolName_of part in
    if negb (in_object toolName executions)
       || negb (is_string (UIPart.state part) "output-available")
    then mret part
    else
      (* [None]: an early [return part] *)
      resolved ←
        (if strict_eq_string (UIPart.output part) (YES APPROVAL) then
           if negb (isValidToolName toolName executions) then mret None
           else
             match get executions toolName with
             | Some toolInstance =>
                 modelMessages ← await (convertToModelMessages messages);
                 match toolInstance with
                 | Callable toolInstance =>
                     result ← call toolName toolInstance (UIPart.input part)
                                {| ctx_messages := modelMessages;
                                   ctx_toolCallId := UIPart.toolCallId part |};
                     mret (Some result)
                 | NotCallable => (await Throw : Async (option JsValue))
                 end
             | None =>
                 mret (Some (JString "Error: No execute function found on tool"))
             end
         else if strict_eq_string (UIPart.output part) (NO APPROVAL) then
           mret (Some (JString "Error: User denied access to tool execution"))
         else mret None) : Async (option JsValue);
      match resolved with
      | None => mret part
      | Some result =>
          _ ← write {| chunk_type := "tool-output-available";
                       chunk_toolCallId := UIPart.toolCallId part;
                       chunk_output := result |};
          mret (UIPart.with_output part result)
      end.

(** What the callbacks of the parts of one message did, part by part; and
    what those of a whole run did, message by message. *)
Abbreviation PartEffects := (list (list Effect)).
Abbreviation RunEffects := (list (list (list Effect))).

(** The callback of [messages.map(...)]; it does nothing to the outside
    but through the callbacks of its parts. *)
Definition processMessage (messages : list UIMessage.t)
    (executions : Executions) (message : UIMessage.t)
    : PartEffects * Completion UIMessage.t :=
  match UIMessage.parts message with
  | None => ([], Normal message)
  | Some parts =>
      let '(effects, settled) :=
        Promise_all (map (processPart messages executions) parts) in
      (effects,
       processedParts ← settled;
       mret (UIMessage.with_parts message processedParts))
  end.

(** [processToolCalls({ dataStream, messages, executions })].  The [tools]
    argument serves type inference only; what is written to [dataStream] is
    among the effects. *)
Definition processToolCalls (messages : list UIMessage.t)
    (executions : Executions) : RunEffects * Completion (list UIMessage.t) :=
  let '(effects, settled) :=
    Promise_all (map (processMessage messages executions) messages) in
  (effects, processedMessages ← settled; mret processedMessages).

(** What the callback of part [j] of message [i] did. *)
Definition effects_at (effects : RunEffects) (i j : nat)
    : option (list Effect) :=
  of_message ← effects !! i; of_message !! j.

(** An effect of the run: of one of its callbacks. *)
Definition performed (effects : RunEffects) (e : Effect) : Prop :=
  ∃ i j of_part, effects_at effects i j = Some of_part ∧ e ∈ of_part.

(** No callback of the run did anything. *)
Definition quiet (effects : RunEffects) : Prop := ∀ e, ¬ performed effects e.

(** The executor calls among the effects of a callback. *)
Definition invocations (effects : list Effect) : list Effect :=
  List.filter (λ e, match e with Invoke _ _ _ => true | Written _ => false end)
    effects.

(** What the remote-tool agent runs before it formats the results:
    [processToolCalls({ messages: cleanupMessages(this.messages), ...,
    executions: {} })]. *)
Definition FlightAgent_reconcile (messages : list UIMessage.t)
    : RunEffects * Completion (list UIMessage.t) :=
  processToolCalls (cleanupMessages messages) ∅.

(** The same step of the fixed-tool agent, with its registry. *)
Definition ChatAgent_reconcile (executions : Executions)
    (messages : list UIMessage.t)
    : RunEffects * Completion (list UIMessage.t) :=
  processToolCalls (cleanupMessages messages) executions.

(** ** [formatTime] and [formatDuration] *)

Definition newline : string := String "010"%char "".

(** [String(n)] for an integer-valued number. *)
Definition Number_toString (n : Z) : string :=
  NilZero.string_of_int (Z.to_int n).

(** [\d] *)
Definition is_digit (c : ascii) : bool :=
  (48 <=? nat_of_ascii c)%nat && (nat_of_ascii c <=? 57)%nat.

Definition digit_value (c : ascii) : Z :=
  Z.of_nat (nat_of_ascii c - 48).

(** [parseInt(s, 10)] on a string of decimal digits. *)
Definition parseInt (s : string) : Z :=
  fold_left (λ n c, (10 * n + digit_value c)%Z) (list_ascii_of_string s) 0%Z.

(** One position of a regular expression without repetition. *)
Inductive Atom : Type :=
| Digit
| Literal (c : ascii).

Definition atom_matches (a : Atom) (c : ascii) : bool :=
  match a with
  | Digit => is_digit c
  | Literal c' => Ascii.eqb c c'
  end.

(** The text the atoms match at the start of [s]. *)
Fixpoint match_here (atoms : list Atom) (s : string) : option string :=
  match atoms, s with
  | [], _ => Some ""
  | _ :: _, EmptyString => None
  | a :: atoms', String c s' =>
      if atom_matches a c then String c <$> match_here atoms' s' else None
  end.

(** [s.match(regexp)] without the [g] flag: the leftmost match. *)
Fixpoint search (atoms : list Atom) (s : string) : option string :=
  match match_here atoms s with
  | Some matched => Some matched
  | None =>
      match s with
      | EmptyString => None
      | String _ s' => search atoms s'
      end
  end.

(** [/(\d{4})-(\d{2})-(\d{2})T(\d{2}):(\d{2})/] *)
Definition datetime : list Atom :=
  [ Digit; Digit; Digit; Digit; Literal "-"; Digit; Digit; Literal "-";
    Digit; Digit; Literal "T"; Digit; Digit; Literal ":"; Digit; Digit ].

Definition formatTime (isoString : string) : string :=
  match search datetime isoString with
  | None => isoString
  | Some matched =>
      let hours := substring 11 2 matched in
      let minutes := substring 14 2 matched in
      let hour := parseInt hours in
      let ampm := if (12 <=? hour)%Z then "PM" else "AM" in
      let hour12 := if (hour mod 12 =? 0)%Z then 12%Z else (hour mod 12)%Z in
      Number_toString hour12 +:+ ":" +:+ minutes +:+ " " +:+ ampm
  end.

(** [\d*] at the start of [s]: the longest run of digits, and the rest. *)
Fixpoint digits (s : string) : string * string :=
  match s with
  | EmptyString => ("", "")
  | String c s' =>
      if is_digit c then let '(run, rest) := digits s' in (String c run, rest)
      else ("", s)
  end.

(** [(?:(\d+)X)?] at the start of [s], for a letter [X]: what the group
    captured, and the text after the group.  A shorter run of digits is
    followed by a digit, never by [X], so the longest run decides. *)
Definition optional_group (X : ascii) (s : string) : option string * string :=
  match digits s with
  | (String d run, String c rest) =>
      if Ascii.eqb c X then (Some (String d run), rest) else (None, s)
  | _ => (None, s)
  end.

(** [s.match(/PT(?:(\d+)H)?(?:(\d+)M)?/)]: groups 1 and 2 of the leftmost
    match.  Both groups are optional, so the first ["PT"] matches. *)
Fixpoint match_duration (s : string) : option (option string * option string) :=
  if startsWith s "PT" then
    let '(H, rest) := optional_group "H" (slice_from 2 s) in
    let '(M, _) := optional_group "M" rest in
    Some (H, M)
  else
    match s with
    | EmptyString => None
    | String _ s' => match_duration s'
    end.

(** The ASCII white space [trim] removes. *)
Definition is_space (c : ascii) : bool :=
  let n := nat_of_ascii c in
  (n =? 32)%nat || ((9 <=? n)%nat && (n <=? 13)%nat).

Fixpoint trimStart (s : string) : string :=
  match s with
  | String c s' => if is_space c then trimStart s' else s
  | EmptyString => EmptyString
  end.

Fixpoint trimEnd (s : string) : string :=
  match s with
  | String c s' =>
      match trimEnd s' with
      | EmptyString => if is_space c then EmptyString else String c EmptyString
      | kept => String c kept
      end
  | EmptyString => EmptyString
  end.

(** [s.trim()], for a string whose ends hold no white space outside ASCII;
    [formatDuration] trims digits, the letters [h] and [m], and one space. *)
Definition trim (s : string) : string := trimEnd (trimStart s).

Definition formatDuration (isoDuration : string) : string :=
  match match_duration isoDuration with
  | None => isoDuration
  | Some (H, M) =>
      let hours := match H with Some h => h +:+ "h" | None => "" end in
      let minutes := match M with Some m => m +:+ "m" | None => "" end in
      trim (hours +:+ " " +:+ minutes)
  end.

(** [s.split(separator)] for a separator that is not empty.  [skip] counts
    the characters of a separator just found that are still ahead. *)
Fixpoint split_skipping (separator : string) (skip : nat) (s : string)
    : list string :=
  match s with
  | EmptyString => [""]
  | String c s' =>
      match skip with
      | S skip' => split_skipping separator skip' s'
      | O =>
          if startsWith s separator
          then "" :: split_skipping separator (String.length separator - 1) s'
          else
            match split_skipping separator 0 s' with
            | piece :: pieces => String c piece :: pieces
            | [] => [String c ""]
            end
      end
  end.

Definition split (separator s : string) : list string :=
  split_skipping separator 0 s.

(** ** [formatFlightResults] *)

(** [for (const x of xs) body], threading the variables the body updates. *)
Definition forOf {A S : Type} (xs : list A) (s : S)
    (body : S → A → Completion S) : Completion S :=
  fold_left (λ c x, s' ← c; body s' x) xs (Normal s).

(** [`${x}`] for a property that may be missing. *)
Definition template_string (x : option string) : string :=
  default "undefined" x.
Definition template_number (x : option Z) : string :=
  default "undefined" (Number_toString <$> x).

(** [`${Object.prototype[key]}`]: how the host prints the member [key] of
    [Object.prototype]. *)
Variable Object_prototype_text : string → string.

(** [`${carriers[airlineCode] || airlineCode}`] *)
Definition airlineName_of (carriers : gmap string string)
    (airlineCode : string) : string :=
  match carriers !! airlineCode with
  | Some name => if String.eqb name "" then airlineCode else name
  | None =>
      if inherited airlineCode then Object_prototype_text airlineCode
      else airlineCode
  end.

(** [formatTime(text.split(" at ")[1] || text)], for [text] a property of a
    segment; reading [split] off a missing property throws. *)
Definition formatTimeOf (property : option string) : Completion string :=
  match property with
  | None => Throw
  | Some text =>
      match split " at " text !! 1%nat with
      | Some time =>
          Normal (formatTime (if String.eqb time "" then text else time))
      | None => Normal (formatTime text)
      end
  end.

(** [formatDuration(property)]; reading [match] off a missing property
    throws. *)
Definition formatDurationOf (property : option string) : Completion string :=
  match property with
  | None => Throw
  | Some isoDuration => Normal (formatDuration isoDuration)
  end.

(** The body of [for (const seg of segments)]. *)
Definition formatSegment (lines : list string) (seg : Segment.t)
    : Completion (list string) :=
  depTime ← formatTimeOf (Segment.departure seg);
  arrTime ← formatTimeOf (Segment.arrival seg);
  duration ← formatDurationOf (Segment.duration seg);
  mret (lines ++ [ "  " +:+ template_string (Segment.flightNumber seg) +:+ ": "
                   +:+ depTime +:+ " → " +:+ arrTime
                   +:+ " (" +:+ duration +:+ ")" ])%list.

(** The body of [for (const itinerary of offer.itineraries || [])]. *)
Definition formatItinerary (airlineName price : string) (offer : Offer.t)
    (lines : list string) (itinerary : Itinerary.t)
    : Completion (list string) :=
  totalDuration ← formatDurationOf (Itinerary.duration itinerary);
  let segments := default [] (Itinerary.segments itinerary) in
  match segments with
  | [seg] =>
      depTime ← formatTimeOf (Segment.departure seg);
      arrTime ← formatTimeOf (Segment.arrival seg);
      mret (lines ++
        [ "• " +:+ airlineName +:+ " "
            +:+ template_string (Segment.flightNumber seg) +:+ " - " +:+ price;
          "  Departs: " +:+ depTime +:+ " → Arrives: " +:+ arrTime
            +:+ " (" +:+ totalDuration +:+ ", nonstop)";
          "  Seats available: " +:+ template_number (Offer.seatsAvailable offer);
          "" ])%list
  | _ =>
      let lines := (lines ++
        [ "• " +:+ airlineName +:+ " - " +:+ price +:+ " ("
            +:+ Number_toString (Z.of_nat (length segments)) +:+ " stops)" ])%list in
      lines ← forOf segments lines formatSegment;
      mret (lines ++
        [ "  Total duration: " +:+ totalDuration;
          "  Seats available: " +:+ template_number (Offer.seatsAvailable offer);
          "" ])%list
  end.

(** [`${offer.price.currency === "EUR" ? "€" : "$"}${offer.price.total}`];
    reading [currency] off a missing [price] throws. *)
Definition priceOf (offer : Offer.t) : Completion string :=
  match Offer.price offer with
  | None => Throw
  | Some price =>
      Normal ((if is_string (Price.currency price) "EUR" then "€" else "$")
              +:+ template_string (Price.total price))
  end.

(** The body of [for (const offer of flightData.offers)]. *)
Definition formatOffer (carriers : gmap string string) (lines : list string)
    (offer : Offer.t) : Completion (list string) :=
  let airlineCode :=
    match Offer.airlines offer with
    | Some (code :: _) => if String.eqb code "" then "Unknown" else code
    | _ => "Unknown"
    end in
  let airlineName := airlineName_of carriers airlineCode in
  price ← priceOf offer;
  forOf (default [] (Offer.itineraries offer)) lines
    (formatItinerary airlineName price offer).

Definition formatFlightResults (data : Unknown) : Completion Output :=
  match data with
  | NotObject _ => Normal (JSON_stringify data)
  | Object flightData =>
      match FlightData.offers flightData with
      | None => Normal (JSON_stringify data)
      | Some offers =>
          let carriers :=
            default ∅ (dictionaries ← FlightData.dictionaries flightData;
                       Dictionaries.carriers dictionaries) in
          let count :=
            match FlightData.totalOffers flightData with
            | Some n => if (n =? 0)%Z then Z.of_nat (length offers) else n
            | None => Z.of_nat (length offers)
            end in
          let lines := [ "Found " +:+ Number_toString count +:+ " flights:"
                         +:+ newline ] in
          lines ← forOf offers lines (formatOffer carriers);
          Normal (Text (String.concat newline lines))
      end
  end.

(** ** Collaborators and inputs of the scenarios *)

(** The decision tokens of the starter's [shared.ts]. *)
Definition shared_APPROVAL : Approval :=
  {| YES := "Yes, confirmed."; NO := "No, denied." |}.

(** A stand-in for the projection: like that of the [ai] package it
    rejects a list with a user or a system message that has no parts, and it
    hands any other list on as it is. *)
Definition projectable (message : UIMessage.t) : bool :=
  match UIMessage.role message, UIMessage.parts message with
  | (user | system), None => false
  | _, _ => true
  end.

Definition plain_projection (messages : list UIMessage.t)
    : Completion (list UIMessage.t) :=
  if forallb projectable messages then Normal messages else Throw.

(** [Object(value)]: an object comes back as it is, [undefined] and [null]
    give a new object, and a primitive comes back wrapped in an object, seen
    here by the wrapper's own enumerable properties. *)
Definition Object_of (value : JsValue) : JsValue :=
  match value with
  | JObject _ | JArray _ => value
  | JString s =>
      JObject (imap (λ i c, (NilZero.string_of_uint (Nat.to_uint i),
                             JString (String c "")))
                 (list_ascii_of_string s))
  | JUndefined | JNull | JBool _ | JNumber _ => JObject []
  end.

(** A stand-in for the host: the members of [Object.prototype] called as
    plain functions, that is without a receiver.  [toString] answers
    ["[object Undefined]"]; [constructor], which is [Object], answers its
    argument as an object; [isPrototypeOf] answers [false] for an argument
    that is no object; every other call throws for want of a receiver. *)
Definition strict_host_call (key : string) : Executor :=
  λ args _,
    if String.eqb key "toString" then Normal (JString "[object Undefined]")
    else if String.eqb key "constructor" then Normal (Object_of args)
    else if String.eqb key "isPrototypeOf" then
      match args with
      | JObject _ | JArray _ => Throw
      | _ => Normal (JBool false)
      end
    else Throw.

(** V8's text for the members of [Object.prototype]; no scenario below
    prints one. *)
Definition V8_prototype_text (key : string) : string :=
  if String.eqb key "__proto__" then "[object Object]"
  else "function " +:+ (if String.eqb key "constructor" then "Object" else key)
       +:+ "() { [native code] }".

Definition toolPart (toolName callId state : string) (input output : JsValue)
    : UIPart.t :=
  {| UIPart.type := "tool-" +:+ toolName; UIPart.toolCallId := Some callId;
     UIPart.state := Some state; UIPart.input := input;
     UIPart.output := output; UIPart.errorText := None; UIPart.rest := [] |}.

Definition textPart (text : string) : UIPart.t :=
  {| UIPart.type := "text"; UIPart.toolCallId := None; UIPart.state := None;
     UIPart.input := JUndefined; UIPart.output := JUndefined;
     UIPart.errorText := None; UIPart.rest := [("text", JString text)] |}.

Definition assistantMessage (id : string) (parts : list UIPart.t) : UIMessage.t :=
  {| UIMessage.id := id; UIMessage.role := assistant;
     UIMessage.metadata := JUndefined; UIMessage.parts := Some parts |}.

Definition userMessage (id text : string) : UIMessage.t :=
  {| UIMessage.id := id; UIMessage.role := user;
     UIMessage.metadata := JUndefined; UIMessage.parts := Some [textPart text] |}.

Definition Paris : JsValue := JObject [("city", JString "Paris")].

(** Scenarios A and B: a decided [getWeather] call and its registry. *)
Definition weatherPart (decision : string) : UIPart.t :=
  toolPart "getWeather" "call-1" "output-available" Paris (JString decision).

Definition getWeather : Executor := λ _ _, Normal (JString "22C, sunny").

Definition weatherExecutions : Executions :=
  {[ "getWeather" := Some getWeather ]}.

(** An executor whose genuine result reads like a denial. *)
Definition refusingExecutions : Executions :=
  {[ "getWeather" :=
       Some (λ _ _, Normal (JString "Error: User denied access to tool execution")) ]}.

(** Scenario C: a tool call cut off while its input was streaming. *)
Definition streamingMessage : UIMessage.t :=
  assistantMessage "m2"
    [ textPart "Let me look that up.";
      toolPart "getWeather" "call-2" "input-streaming" JUndefined JUndefined ].

(** A decided call of a tool named like a member of [Object.prototype]. *)
Definition toStringPart (decision : string) : UIPart.t :=
  toolPart "toString" "call-3" "output-available" Paris (JString decision).

(** Scenario D. *)
Definition segmentD : Segment.t :=
  {| Segment.departure := Some "... at 2024-01-01T09:00";
     Segment.arrival := Some "... at 2024-01-01T11:30";
     Segment.carrier := Some "AB"; Segment.flightNumber := Some "AB123";
     Segment.duration := Some "PT2H30M"; Segment.stops := Some 0%Z |}.

Definition offerD (currency : string) : Offer.t :=
  {| Offer.offerId := Some "1";
     Offer.price := Some {| Price.total := Some "100";
                            Price.currency := Some currency |};
     Offer.airlines := Some ["AB"];
     Offer.itineraries :=
       Some [ {| Itinerary.duration := Some "PT2H30M";
                 Itinerary.segments := Some [segmentD] |} ];
     Offer.seatsAvailable := Some 3%Z |}.

Definition flightsOf (offers : list Offer.t) : Unknown :=
  Object {| FlightData.totalOffers := Some (Z.of_nat (length offers));
            FlightData.offers := Some offers;
            FlightData.dictionaries :=
              Some {| Dictionaries.carriers := Some {[ "AB" := "Air Bravo" ]} |} |}.

Definition scenarioD : Unknown := flightsOf [offerD "EUR"].

(** An offer that has no [price] property. *)
Definition offerWithoutPrice : Offer.t :=
  {| Offer.offerId := Some "2"; Offer.price := None;
     Offer.airlines := Some ["AB"]; Offer.itineraries := Some [];
     Offer.seatsAvailable := Some 1%Z |}.

(** ** The frame of a resolution pass, as the specification words it *)

(** A value that reads as one of the two decision tokens. *)
Definition Token (v : JsValue) : Prop :=
  v = JString (YES APPROVAL) ∨ v = JString (NO APPROVAL).

(** [part'] has every property of [part], but for its output. *)
Definition SameButOutput (part part' : UIPart.t) : Prop :=
  UIPart.type part' = UIPart.type part
  ∧ UIPart.toolCallId part' = UIPart.toolCallId part
  ∧ UIPart.state part' = UIPart.state part
  ∧ UIPart.input part' = UIPart.input part
  ∧ UIPart.errorText part' = UIPart.errorText part
  ∧ UIPart.rest part' = UIPart.rest part.

(** A part the resolver is to resolve (steps 1 to 4 of the pass): a static
    tool part in state [output-available] that holds a decision token, under
    a tool name the registry has.  The registry has the names of its own
    keys; the code asks with [in], which also finds the member names of
    [Object.prototype] on every registry. *)
Definition Decided (executions : Executions) (part : UIPart.t) : Prop :=
  isStaticToolUIPart part = true
  ∧ UIPart.state part = Some "output-available"
  ∧ Token (UIPart.output part)
  ∧ (is_Some (executions !! toolName_of part)
     ∨ inherited (toolName_of part) = true).

(** A part after the pass: the part itself, or a part that was to be
    resolved with a new output. *)
Definition FramedPart (executions : Executions) (part part' : UIPart.t)
    : Prop :=
  part' = part ∨ (Decided executions part ∧ SameButOutput part part').

(** A message after the pass: its own role, id and metadata, and its parts
    one for one. *)
Definition FramedMessage (executions : Executions)
    (message message' : UIMessage.t) : Prop :=
  UIMessage.id message' = UIMessage.id message
  ∧ UIMessage.role message' = UIMessage.role message
  ∧ UIMessage.metadata message' = UIMessage.metadata message
  ∧ match UIMessage.parts message, UIMessage.parts message' with
    | None, None => True
    | Some parts, Some parts' => Forall2 (FramedPart executions) parts parts'
    | _, _ => False
    end.

(** ** What [formatFlightResults] reads without a guard *)

Definition TimedSegment (seg : Segment.t) : Prop :=
  is_Some (Segment.departure seg) ∧ is_Some (Segment.arrival seg).

Definition CompleteItinerary (itinerary : Itinerary.t) : Prop :=
  let segments := default [] (Itinerary.segments itinerary) in
  is_Some (Itinerary.duration itinerary)
  ∧ Forall TimedSegment segments
  ∧ (length segments ≠ 1%nat →
     Forall (λ seg, is_Some (Segment.duration seg)) segments).

Definition CompleteOffer (offer : Offer.t) : Prop :=
  is_Some (Offer.price offer)
  ∧ Forall CompleteItinerary (default [] (Offer.itineraries offer)).

(** The [offers] array of the argument, if it has one. *)
Definition offers_of (data : Unknown) : option (list Offer.t) :=
  match data with
  | NotObject _ => None
  | Object flightData => FlightData.offers flightData
  end.

Definition Complete (data : Unknown) : Prop :=
  Forall CompleteOffer (default [] (offers_of data)).

(** The price of an offer as the transformer prints it. *)
Definition rendered_price (price : Price.t) : string :=
  (if decide (Price.currency price = Some "EUR") then "€" else "$")
  +:+ default "undefined" (Price.total price).

(** ** Further notions for the resolver *)

(** The chunks a callback has written. *)
Definition chunks (effects : list Effect) : list UIMessageChunk :=
  omap (λ e, match e with Written chunk => Some chunk | Invoke _ _ _ => None end)
    effects.

(** The chunk that announces the output a part holds. *)
Definition chunk_of (part : UIPart.t) : UIMessageChunk :=
  {| chunk_type := "tool-output-available";
     chunk_toolCallId := UIPart.toolCallId part;
     chunk_output := UIPart.output part |}.

(** ** [ChatAgent.executeTask] *)

(** The message [executeTask] appends for a task that fired; [id] is what
    [generateId()] returned and [createdAt] what [new Date()] is. *)
Definition taskMessage (id : string) (createdAt : JsValue)
    (description : string) : UIMessage.t :=
  {| UIMessage.id := id;
     UIMessage.role := user;
     UIMessage.parts :=
       Some [ {| UIPart.type := "text"; UIPart.toolCallId := None;
                 UIPart.state := None; UIPart.input := JUndefined;
                 UIPart.output := JUndefined; UIPart.errorText := None;
                 UIPart.rest :=
                   [("text", JString ("Running scheduled task: "
                                      +:+ description))] |} ];
     UIMessage.metadata := JObject [("createdAt", createdAt)] |}.

(** The list [executeTask] hands to [saveMessages]. *)
Definition executeTask (id : string) (createdAt : JsValue)
    (description : string) (messages : list UIMessage.t) : list UIMessage.t :=
  (messages ++ [taskMessage id createdAt description])%list.

(** ** Time stamps and durations, as they are written *)

(** A string of decimal digits. *)
Fixpoint digits_only (s : string) : bool :=
  match s with
  | EmptyString => true
  | String c s' => is_digit c && digits_only s'
  end.

(** A string of [n] decimal digits. *)
Definition Digits (n : nat) (s : string) : Prop :=
  String.length s = n ∧ digits_only s = true.

(** A string that does not begin with a digit. *)
Definition no_leading_digit (s : string) : bool :=
  match s with
  | EmptyString => true
  | String c _ => negb (is_digit c)
  end.

(** A string without a space. *)
Fixpoint no_space (s : string) : bool :=
  match s with
  | EmptyString => true
  | String c s' => negb (Ascii.eqb c " ") && no_space s'
  end.

(** The two digits of a number below 100. *)
Definition pad2 (n : nat) : string :=
  String (ascii_of_nat (48 + n / 10))
    (String (ascii_of_nat (48 + n mod 10)) "").

(** The hour of the 12-hour clock for an hour of the day. *)
Definition hour12 (hour : nat) : nat :=
  if (hour =? 0)%nat then 12
  else if (hour <=? 12)%nat then hour else hour - 12.

(** An ISO 8601 duration of hours and minutes, either of which may be left
    out, and the way [formatDuration] writes it. *)
Definition iso_duration (hours minutes : option string) : string :=
  "PT" +:+ from_option (λ h, h +:+ "H") "" hours
       +:+ from_option (λ m, m +:+ "M") "" minutes.

Definition readable_duration (hours minutes : option string) : string :=
  match hours, minutes with
  | Some h, Some m => h +:+ "h " +:+ m +:+ "m"
  | Some h, None => h +:+ "h"
  | None, Some m => m +:+ "m"
  | None, None => ""
  end.

(** A number of hours or minutes as a duration writes it: digits, at least
    one. *)
Definition Count (field : option string) : Prop :=
  match field with
  | Some s => digits_only s = true ∧ s ≠ ""
  | None => True
  end.

(** ** The headline of the transformer's text, as it reads *)

(** The number in the first line: [totalOffers] when it is there and not
    zero, else the number of offers. *)
Definition announced_count (flightData : FlightData.t)
    (offers : list Offer.t) : Z :=
  match FlightData.totalOffers flightData with
  | Some n => if decide (n = 0%Z) then Z.of_nat (length offers) else n
  | None => Z.of_nat (length offers)
  end.

(** The carrier dictionary of the argument; none is an empty one. *)
Definition carriers_of (flightData : FlightData.t) : gmap string string :=
  match FlightData.dictionaries flightData with
  | Some {| Dictionaries.carriers := Some carriers |} => carriers
  | _ => ∅
  end.

(** The name an offer is printed under: the dictionary's name for its first
    airline code; the code itself when the dictionary has no name for it;
    ["Unknown"] in place of a missing code. *)
Inductive NamedAs (carriers : gmap string string) (offer : Offer.t)
    : string → Prop :=
| NamedAs_carrier code codes name :
    Offer.airlines offer = Some (code :: codes) → code ≠ "" →
    carriers !! code = Some name → name ≠ "" →
    NamedAs carriers offer name
| NamedAs_code code codes :
    Offer.airlines offer = Some (code :: codes) → code ≠ "" →
    (carriers !! code = None ∧ inherited code = false
     ∨ carriers !! code = Some "") →
    NamedAs carriers offer code
| NamedAs_unknown :
    (Offer.airlines offer = None ∨ Offer.airlines offer = Some []
     ∨ ∃ codes, Offer.airlines offer = Some ("" :: codes)) →
    carriers !! "Unknown" = None →
    NamedAs carriers offer "Unknown".

(** ** The result transformer of [FlightAgent.onChatMessage] *)

Section Transform.

(** What the repository's code takes from outside: an object seen as the
    shape [formatFlightResults] casts it to, and the text [JSON.stringify]
    prints for a value. *)
Variable cast : JsValue → FlightData.t.
Variable JSON_text : Unknown → string.

(** [v && typeof v === "object" && "offers" in v] *)
Definition has_offers (v : JsValue) : bool :=
  match v with
  | JObject properties =>
      existsb (λ property, String.eqb (fst property) "offers") properties
  | _ => false
  end.

(** The string that [formatFlightResults] has returned. *)
Definition text_of (output : Output) : string :=
  match output with
  | Text text => text
  | JSON_stringify data => JSON_text data
  end.

(** [formatFlightResults(part.output)], for an object, as a value. *)
Definition formatted (output : JsValue) : Completion JsValue :=
  match formatFlightResults (Object (cast output)) with
  | Normal result => Normal (JString (text_of result))
  | Throw => Throw
  end.

(** The callback of [msg.parts.map(...)]. *)
Definition transformPart (part : UIPart.t) : Completion UIPart.t :=
  if startsWith (UIPart.type part) "tool-" && has_offers (UIPart.output part)
  then
    output ← formatted (UIPart.output part);
    mret (UIPart.with_output part output)
  else mret part.

(** The callback of [processedMessages.map(...)]. *)
Definition transformMessage (msg : UIMessage.t) : Completion UIMessage.t :=
  match UIMessage.parts msg with
  | None => mret msg
  | Some parts =>
      transformedParts ← mapM transformPart parts;
      mret (UIMessage.with_parts msg transformedParts)
  end.

Definition transformMessages (processedMessages : list UIMessage.t)
    : Completion (list UIMessage.t) :=
  mapM transformMessage processedMessages.

(** What [FlightAgent.onChatMessage] hands to [convertToModelMessages]:
    the history sanitized, resolved and transformed. *)
Definition FlightAgent_transformed (messages : list UIMessage.t)
    : RunEffects * Completion (list UIMessage.t) :=
  let '(effects, settled) := FlightAgent_reconcile messages in
  (effects, processedMessages ← settled; transformMessages processedMessages).

(** *** The transformer as the specification words it *)

(** A value that is an object with a property [offers]. *)
Inductive HoldsOffers : JsValue → Prop :=
| HoldsOffers_object properties offers :
    ("offers", offers) ∈ properties → HoldsOffers (JObject properties).

(** A part after the transformer.  A static tool part whose output is an
    object with [offers] comes back with the text [formatFlightResults]
    returns for that output as its output, and is otherwise the same; any
    other part comes back as it is. *)
Definition TransformedPart (part part' : UIPart.t) : Prop :=
  (isStaticToolUIPart part = true ∧ HoldsOffers (UIPart.output part) →
   ∃ result,
     formatFlightResults (Object (cast (UIPart.output part))) = Normal result
     ∧ UIPart.output part' = JString (text_of result)
     ∧ SameButOutput part part')
  ∧ (¬ (isStaticToolUIPart part = true ∧ HoldsOffers (UIPart.output part)) →
     part' = part).

(** A message after the transformer: its own id, role and metadata, and
    its parts one for one. *)
Definition TransformedMessage (msg msg' : UIMessage.t) : Prop :=
  UIMessage.id msg' = UIMessage.id msg
  ∧ UIMessage.role msg' = UIMessage.role msg
  ∧ UIMessage.metadata msg' = UIMessage.metadata msg
  ∧ match UIMessage.parts msg, UIMessage.parts msg' with
    | None, None => True
    | Some parts, Some parts' => Forall2 TransformedPart parts parts'
    | _, _ => False
    end.

End Transform.

(** ** A result of the flight search, as a value and as the cast sees it *)

(** [v[key]] for an own property of an object. *)
Definition property (key : string) (v : JsValue) : option JsValue :=
  match v with
  | JObject properties =>
      snd <$> List.find (λ p, String.eqb (fst p) key) properties
  | _ => None
  end.

Definition as_string (v : JsValue) : option string :=
  match v with JString s => Some s | _ => None end.

Definition as_number (v : JsValue) : option Z :=
  match v with JNumber n => Some n | _ => None end.

Definition as_array {A : Type} (read : JsValue → A) (v : JsValue)
    : option (list A) :=
  match v with JArray elements => Some (map read elements) | _ => None end.

(** A reading of the cast, for results of the declared type: a property
    that is missing is missing, and so is a price that is [null].  (A result
    with a property of another type than declared is outside the typed
    view; such a property reads as missing here.) *)
Definition read_segment (v : JsValue) : Segment.t :=
  {| Segment.departure := property "departure" v ≫= as_string;
     Segment.arrival := property "arrival" v ≫= as_string;
     Segment.carrier := property "carrier" v ≫= as_string;
     Segment.flightNumber := property "flightNumber" v ≫= as_string;
     Segment.duration := property "duration" v ≫= as_string;
     Segment.stops := property "stops" v ≫= as_number |}.

Definition read_itinerary (v : JsValue) : Itinerary.t :=
  {| Itinerary.duration := property "duration" v ≫= as_string;
     Itinerary.segments := property "segments" v ≫= as_array read_segment |}.

Definition read_price (v : JsValue) : Price.t :=
  {| Price.total := property "total" v ≫= as_string;
     Price.currency := property "currency" v ≫= as_string |}.

Definition read_offer (v : JsValue) : Offer.t :=
  {| Offer.offerId := property "offerId" v ≫= as_string;
     Offer.price :=
       property "price" v
       ≫= λ price, match price with
                   | JUndefined | JNull => None
                   | _ => Some (read_price price)
                   end;
     Offer.airlines :=
       property "airlines" v ≫= as_array (λ code, default "" (as_string code));
     Offer.itineraries :=
       property "itineraries" v ≫= as_array read_itinerary;
     Offer.seatsAvailable := property "seatsAvailable" v ≫= as_number |}.

Definition read_carriers (v : JsValue) : option (gmap string string) :=
  match v with
  | JObject properties =>
      Some (list_to_map
              (omap (λ p, pair (fst p) <$> as_string (snd p)) properties))
  | _ => None
  end.

Definition read_flightData (v : JsValue) : FlightData.t :=
  {| FlightData.totalOffers := property "totalOffers" v ≫= as_number;
     FlightData.offers := property "offers" v ≫= as_array read_offer;
     FlightData.dictionaries :=
       (λ d, {| Dictionaries.carriers := property "carriers" d ≫= read_carriers |})
       <$> property "dictionaries" v |}.

(** A stand-in for [JSON.stringify]; no scenario below prints a raw value. *)
Definition raw_text (data : Unknown) : string := "null".

(** Scenario D as the remote tool returns it, and an offer with no price. *)
Definition segmentD_value : JsValue :=
  JObject [ ("departure", JString "... at 2024-01-01T09:00");
            ("arrival", JString "... at 2024-01-01T11:30");
            ("carrier", JString "AB"); ("flightNumber", JString "AB123");
            ("duration", JString "PT2H30M"); ("stops", JNumber 0) ].

Definition offerD_value : JsValue :=
  JObject [ ("offerId", JString "1");
            ("price", JObject [ ("total", JString "100");
                                ("currency", JString "EUR") ]);
            ("airlines", JArray [JString "AB"]);
            ("itineraries",
             JArray [ JObject [ ("duration", JString "PT2H30M");
                                ("segments", JArray [segmentD_value]) ] ]);
            ("seatsAvailable", JNumber 3) ].

Definition offerWithoutPrice_value : JsValue :=
  JObject [ ("offerId", JString "2"); ("airlines", JArray [JString "AB"]);
            ("itineraries", JArray []); ("seatsAvailable", JNumber 1) ].

Definition flights_value (offers : list JsValue) : JsValue :=
  JObject [ ("totalOffers", JNumber (Z.of_nat (length offers)));
            ("offers", JArray offers);
            ("dictionaries",
             JObject [ ("carriers", JObject [ ("AB", JString "Air Bravo") ]) ]) ].

(** A finished call of the remote search tool. *)
Definition searchPart (output : JsValue) : UIPart.t :=
  toolPart "searchFlights" "call-4" "output-available"
    (JObject [("origin", JString "JFK"); ("destination", JString "CDG")])
    output.


(** ** Further registries and results for the scenarios *)

(** An executor that rejects; a key that holds no function; an executor
    whose result reads as the approval. *)
Definition failingExecutions : Executions :=
  {[ "getWeather" := Some (λ _ _, Throw) ]}.

Definition emptySlotExecutions : Executions :=
  {[ "getWeather" := None ]}.

Definition echoingExecutions : Executions :=
  {[ "getWeather" := Some (λ _ _, Normal (JString "Yes, confirmed.")) ]}.

(** A call whose input is there and whose outcome is not. *)
Definition awaitingMessage : UIMessage.t :=
  assistantMessage "m4"
    [toolPart "getWeather" "call-4" "input-available" Paris JUndefined].

(** A call in state [input-available] that holds an error text. *)
Definition failedMessage : UIMessage.t :=
  assistantMessage "m5"
    [ {| UIPart.type := "tool-getWeather"; UIPart.toolCallId := Some "call-5";
         UIPart.state := Some "input-available"; UIPart.input := Paris;
         UIPart.output := JUndefined;
         UIPart.errorText := Some "The tool is not available";
         UIPart.rest := [] |} ].

(** A list the projection of the [ai] package rejects: a system message
    without parts before the decided call. *)
Definition unprojectableHistory : list UIMessage.t :=
  [ {| UIMessage.id := "s0"; UIMessage.role := system;
       UIMessage.metadata := JUndefined; UIMessage.parts := None |};
    assistantMessage "m1" [weatherPart "Yes, confirmed."] ].

(** A history with a cut-off call and a decided one. *)
Definition interruptedHistory : list UIMessage.t :=
  [ userMessage "m0" "What is the weather in Paris?";
    streamingMessage;
    assistantMessage "m1" [weatherPart "Yes, confirmed."] ].

(** An offer with a connection: one itinerary of two segments. *)
Definition secondLeg_value : JsValue :=
  JObject [ ("departure", JString "CDG at 2024-01-01T13:00");
            ("arrival", JString "FCO at 2024-01-01T15:05");
            ("carrier", JString "AB"); ("flightNumber", JString "AB456");
            ("duration", JString "PT2H5M"); ("stops", JNumber 0) ].

Definition connectionItinerary_value : JsValue :=
  JObject [ ("duration", JString "PT9H5M");
            ("segments", JArray [segmentD_value; secondLeg_value]) ].

Definition connection_value : JsValue :=
  JObject [ ("offerId", JString "3");
            ("price", JObject [ ("total", JString "420");
                                ("currency", JString "EUR") ]);
            ("airlines", JArray [JString "AB"]);
            ("itineraries", JArray [connectionItinerary_value]);
            ("seatsAvailable", JNumber 2) ].

(** The settled part of a tool whose result is an object without offers. *)
Definition bookingPart : UIPart.t :=
  toolPart "bookFlight" "call-5" "output-available"
    (JObject [("offerId", JString "1")])
    (JObject [("bookingId", JString "B1")]).

(** A history of the remote-tool agent with one finished search and one
    result that holds no offers. *)
Definition searchHistory (offers : list JsValue) : list UIMessage.t :=
  [ userMessage "m0" "Flights from JFK to CDG?";
    assistantMessage "m3"
      [ textPart "Here is what I found."; searchPart (flights_value offers);
        bookingPart ] ].

(** A history with one decided call among parts that are not decided: a
    settled call of the same tool, a text part, and a part whose output is
    the denial token but whose tool the registry does not hold. *)
Definition mixedHistory : list UIMessage.t :=
  [ userMessage "m0" "Weather in Paris?";
    assistantMessage "m1"
      [ toolPart "getWeather" "call-0" "output-available" Paris
          (JString "18C, rain");
        textPart "Let me check again.";
        weatherPart "Yes, confirmed.";
        toolPart "getLocalTime" "call-7" "output-available" Paris
          (JString "No, denied.") ] ].

(** * Properties *)

(** ** The sanitizer *)

Lemma is_string_true (o : option string) (s : string) :
  is_string o s = true ↔ o = Some s.
Proof.
  destruct o as [t|]; simpl; [|by split].
  rewrite String.eqb_eq. split; congruence.
Qed.

(** What [!v] takes for no value. *)
Lemma truthy_false (v : JsValue) : truthy v = false ↔ Unset v.
Proof.
  split.
  - destruct v as [| |[]|n|s| |]; simpl; try done; try constructor.
    + intros Hn%negb_false_iff%Z.eqb_eq. subst. constructor.
    + intros Hs%negb_false_iff%String.eqb_eq. subst. constructor.
  - by destruct 1.
Qed.

Lemma truthy_string_false (o : option string) :
  truthy_string o = false ↔ o = None ∨ o = Some "".
Proof.
  destruct o as [s|]; simpl.
  - rewrite negb_false_iff, String.eqb_eq. split.
    + intros ->. by right.
    + by intros [|[= ->]].
  - split; [by left | done].
Qed.

Lemma isIncompleteToolCall_spec (part : UIPart.t) :
  isIncompleteToolCall part = true ↔ IncompletePart part.
Proof.
  unfold isIncompleteToolCall, IncompletePart, NoOutput, NoErrorText.
  destruct (isStaticToolUIPart part); simpl; [|by intuition].
  rewrite orb_true_iff, !andb_true_iff, !negb_true_iff, !is_string_true.
  rewrite truthy_false, truthy_string_false. tauto.
Qed.

(** On a part typed as the [ai] package types it, with no [output] and no
    [errorText] while in state [input-available], the state alone decides. *)
Lemma IncompletePart_typed (part : UIPart.t) :
  (UIPart.state part = Some "input-available" →
   UIPart.output part = JUndefined ∧ UIPart.errorText part = None) →
  IncompletePart part ↔
  isStaticToolUIPart part = true
  ∧ (UIPart.state part = Some "input-streaming"
     ∨ UIPart.state part = Some "input-available").
Proof.
  intros Htyped. unfold IncompletePart, NoOutput, NoErrorText. split.
  - intros [Hstatic [Hstate|[Hstate _]]]; auto.
  - intros [Hstatic [Hstate|Hstate]]; [auto|].
    destruct (Htyped Hstate) as [-> ->]. split; [done|]. right.
    split; [done|]. split; [constructor | by left].
Qed.

Lemma keepMessage_false (message : UIMessage.t) :
  keepMessage message = false ↔ HasIncompletePart message.
Proof.
  unfold keepMessage, HasIncompletePart.
  destruct (UIMessage.parts message) as [parts|].
  - rewrite negb_false_iff, existsb_exists. split.
    + intros (part & Hin & Hpart). exists parts, part.
      by rewrite list_elem_of_In, <- isIncompleteToolCall_spec.
    + intros (parts' & part & [= <-] & Hin & Hpart). exists part.
      by rewrite <- list_elem_of_In, isIncompleteToolCall_spec.
  - split; [done|]. by intros (? & ? & ? & _).
Qed.

Lemma keepMessage_true (message : UIMessage.t) :
  keepMessage message = true ↔ ¬ HasIncompletePart message.
Proof. rewrite <- keepMessage_false. by destruct (keepMessage message). Qed.

Lemma cleanupMessages_Sanitized (messages : list UIMessage.t) :
  Sanitized messages (cleanupMessages messages).
Proof.
  induction messages as [|m ms IH]; simpl; [constructor|].
  destruct (keepMessage m) eqn:Hkeep.
  - apply Sanitized_keep; [by apply keepMessage_true | exact IH].
  - apply Sanitized_drop; [by apply keepMessage_false | exact IH].
Qed.

(** The relation names one result, so it says all there is to say about
    the list [cleanupMessages] returns. *)
Lemma Sanitized_functional (ms kept kept' : list UIMessage.t) :
  Sanitized ms kept → Sanitized ms kept' → kept = kept'.
Proof.
  intros H. revert kept'.
  induction H as [|m ms kept Hm _ IH|m ms kept Hm _ IH]; intros kept' H';
    inversion H'; subst; try done; try (by f_equal; apply IH); by apply IH.
Qed.

Lemma cleanupMessages_elem_of (messages : list UIMessage.t) (m : UIMessage.t) :
  m ∈ cleanupMessages messages ↔ m ∈ messages ∧ ¬ HasIncompletePart m.
Proof.
  unfold cleanupMessages.
  rewrite !list_elem_of_In, filter_In, keepMessage_true. done.
Qed.

Lemma cleanupMessages_sublist (messages : list UIMessage.t) :
  cleanupMessages messages `sublist_of` messages.
Proof.
  induction messages as [|m ms IH]; simpl; [done|].
  destruct (keepMessage m); by constructor.
Qed.

(** A message with a tool call still in [input-streaming] never reaches
    the list the resolver is given. *)
Lemma cleanupMessages_drops_streaming (messages : list UIMessage.t)
    (m : UIMessage.t) (parts : list UIPart.t) (part : UIPart.t) :
  UIMessage.parts m = Some parts → part ∈ parts →
  isStaticToolUIPart part = true →
  UIPart.state part = Some "input-streaming" →
  m ∉ cleanupMessages messages.
Proof.
  intros Hparts Hin Hstatic Hstate. rewrite cleanupMessages_elem_of.
  intros [_ Hnot]. apply Hnot. exists parts, part.
  repeat split; try done. by left.
Qed.

(** C4.  [cleanupMessages] takes out exactly the messages that hold a static
    tool part in state [input-streaming], or in state [input-available] with
    neither an output nor an error text set, and keeps the others as they
    are and in their order; no other list stands in that relation to the
    input.  In scenario C the message whose tool call is still streaming is
    taken out, and the fixed-tool agent hands the resolver the list without
    it; so is a message whose tool call has its input and neither an output
    nor an error text, while a message whose call in that state has an
    error text is kept. *)
Theorem cleanupMessages_removes_incomplete :
  (∀ messages kept,
     Sanitized messages kept ↔ kept = cleanupMessages messages)
  ∧ cleanupMessages [userMessage "m1" "Weather in Paris?"; streamingMessage]
    = [userMessage "m1" "Weather in Paris?"]
  ∧ (∀ executions,
       ChatAgent_reconcile executions
         [userMessage "m1" "Weather in Paris?"; streamingMessage]
       = processToolCalls [userMessage "m1" "Weather in Paris?"] executions)
  ∧ cleanupMessages [awaitingMessage; userMessage "m1" "Weather in Paris?"]
    = [userMessage "m1" "Weather in Paris?"]
  ∧ cleanupMessages [failedMessage] = [failedMessage].
Proof.
  split.
  { intros messages kept. split.
    - intros H. eapply Sanitized_functional; [exact H|].
      apply cleanupMessages_Sanitized.
    - intros ->. apply cleanupMessages_Sanitized. }
  split; [reflexivity|]. split; [intros executions; reflexivity|].
  split; reflexivity.
Qed.

(** C5.  Running [cleanupMessages] on its own result changes nothing. *)
Theorem cleanupMessages_idempotent (messages : list UIMessage.t) :
  cleanupMessages (cleanupMessages messages) = cleanupMessages messages.
Proof.
  induction messages as [|m ms IH]; simpl; [done|].
  destruct (keepMessage m) eqn:Hkeep; simpl; [|exact IH].
  by rewrite Hkeep, IH.
Qed.

(** ** The resolver *)

Lemma replace_prefix (pattern replacement s : string) :
  startsWith s pattern = true →
  replace pattern replacement s
  = replacement +:+ slice_from (String.length pattern) s.
Proof. intros H. destruct s; cbn [replace]; by rewrite H. Qed.

Lemma toolName_of_toolPart (toolName callId state : string)
    (input output : JsValue) :
  toolName_of (toolPart toolName callId state input output) = toolName.
Proof. reflexivity. Qed.

Lemma in_object_own (key : string) (obj : Executions) :
  is_Some (obj !! key) → in_object key obj = true.
Proof. intros H. unfold in_object. by rewrite bool_decide_eq_true_2. Qed.

Lemma in_object_false (key : string) (obj : Executions) :
  obj !! key = None → inherited key = false → in_object key obj = false.
Proof.
  intros Hown Hinherited. unfold in_object. rewrite Hown, Hinherited.
  by rewrite bool_decide_eq_false_2 by by intros [? [=]].
Qed.

Lemma in_object_true (key : string) (obj : Executions) :
  in_object key obj = true → is_Some (obj !! key) ∨ inherited key = true.
Proof.
  unfold in_object. intros [H|H]%orb_true_iff; [left | by right].
  by apply bool_decide_eq_true in H.
Qed.

Lemma strict_eq_string_refl (s : string) : strict_eq_string (JString s) s = true.
Proof. apply String.eqb_refl. Qed.

Lemma strict_eq_string_ne (s t : string) :
  s ≠ t → strict_eq_string (JString s) t = false.
Proof. intros H. by apply String.eqb_neq. Qed.

Lemma strict_eq_string_true (v : JsValue) (s : string) :
  strict_eq_string v s = true ↔ v = JString s.
Proof.
  destruct v; simpl; try (by split). rewrite String.eqb_eq.
  split; congruence.
Qed.

(** [{ ...part, output: result }] has [result] for its output and is the
    part in everything else. *)
Lemma with_output_output (part : UIPart.t) (result : JsValue) :
  UIPart.output (UIPart.with_output part result) = result.
Proof. reflexivity. Qed.

Lemma with_output_SameButOutput (part : UIPart.t) (result : JsValue) :
  SameButOutput part (UIPart.with_output part result).
Proof. by repeat split. Qed.

Lemma with_output_same (part : UIPart.t) :
  UIPart.with_output part (UIPart.output part) = part.
Proof. by destruct part. Qed.

(** [processPart] with its monad run: the ways through the callback. *)
Lemma processPart_unfold (messages : list UIMessage.t)
    (executions : Executions) (part : UIPart.t) :
  processPart messages executions part =
    let toolName := toolName_of part in
    let resolve result :=
      ([Written {| chunk_type := "tool-output-available";
                   chunk_toolCallId := UIPart.toolCallId part;
                   chunk_output := result |}],
       Normal (UIPart.with_output part result)) in
    if negb (isStaticToolUIPart part) then ([], Normal part)
    else if negb (in_object toolName executions)
            || negb (is_string (UIPart.state part) "output-available")
    then ([], Normal part)
    else if strict_eq_string (UIPart.output part) (YES APPROVAL) then
      match get executions toolName with
      | Some member =>
          match convertToModelMessages messages with
          | Normal modelMessages =>
              let options := {| ctx_messages := modelMessages;
                                ctx_toolCallId := UIPart.toolCallId part |} in
              match member with
              | Callable toolInstance =>
                  match toolInstance (UIPart.input part) options with
                  | Normal result =>
                      (Invoke toolName (UIPart.input part) options
                         :: fst (resolve result),
                       snd (resolve result))
                  | Throw =>
                      ([Invoke toolName (UIPart.input part) options], Throw)
                  end
              | NotCallable => ([], Throw)
              end
          | Throw => ([], Throw)
          end
      | None => resolve (JString "Error: No execute function found on tool")
      end
    else if strict_eq_string (UIPart.output part) (NO APPROVAL) then
      resolve (JString "Error: User denied access to tool execution")
    else ([], Normal part).
Proof.
  unfold processPart, isValidToolName.
  destruct (isStaticToolUIPart part); simpl; [|done].
  destruct (in_object (toolName_of part) executions); simpl; [|done].
  destruct (is_string (UIPart.state part) "output-available"); simpl; [|done].
  destruct (strict_eq_string (UIPart.output part) (YES APPROVAL)).
  - destruct (get executions (toolName_of part)) as [[toolInstance|]|];
      [| |done]; unfold await, call, mbind, Async_bind;
      destruct (convertToModelMessages messages) as [modelMessages|];
      try done.
    by destruct (toolInstance _ _).
  - by destruct (strict_eq_string (UIPart.output part) (NO APPROVAL)).
Qed.

(** A part the resolver has no business with goes through untouched, with
    no call and no chunk. *)
Lemma processPart_unchanged (messages : list UIMessage.t)
    (executions : Executions) (part : UIPart.t) :
  isStaticToolUIPart part = false
  ∨ in_object (toolName_of part) executions = false
  ∨ UIPart.state part ≠ Some "output-available"
  ∨ (UIPart.output part ≠ JString (YES APPROVAL)
     ∧ UIPart.output part ≠ JString (NO APPROVAL)) →
  processPart messages executions part = ([], Normal part).
Proof.
  intros H. rewrite processPart_unfold. cbv zeta.
  destruct (isStaticToolUIPart part); [|done].
  destruct (in_object _ _); [|done].
  destruct (is_string _ _) eqn:Hstate; [|done]. simpl.
  apply is_string_true in Hstate.
  destruct H as [?|[?|[?|[Hyes Hno]]]]; try done.
  destruct (UIPart.output part) as [| |b|n|s|l|o]; try done. simpl.
  destruct (String.eqb_spec s (YES APPROVAL)) as [->|_]; [done|].
  destruct (String.eqb_spec s (NO APPROVAL)) as [->|_]; done.
Qed.

(** An approved call of a tool the registry has an executor for. *)
Lemma processPart_approved (messages : list UIMessage.t)
    (executions : Executions) (part : UIPart.t) (toolInstance : Executor) :
  isStaticToolUIPart part = true →
  executions !! toolName_of part = Some (Some toolInstance) →
  UIPart.state part = Some "output-available" →
  UIPart.output part = JString (YES APPROVAL) →
  processPart messages executions part
  = match convertToModelMessages messages with
    | Normal modelMessages =>
        let options := {| ctx_messages := modelMessages;
                          ctx_toolCallId := UIPart.toolCallId part |} in
        match toolInstance (UIPart.input part) options with
        | Normal result =>
            ([ Invoke (toolName_of part) (UIPart.input part) options;
               Written {| chunk_type := "tool-output-available";
                          chunk_toolCallId := UIPart.toolCallId part;
                          chunk_output := result |} ],
             Normal (UIPart.with_output part result))
        | Throw =>
            ([Invoke (toolName_of part) (UIPart.input part) options], Throw)
        end
    | Throw => ([], Throw)
    end.
Proof.
  intros Hstatic Hown Hstate Houtput.
  rewrite processPart_unfold. cbv zeta.
  rewrite Hstatic, in_object_own by by rewrite Hown.
  rewrite (proj2 (is_string_true _ _) Hstate), Houtput, strict_eq_string_refl.
  unfold get. rewrite Hown. simpl.
  destruct (convertToModelMessages messages) as [modelMessages|]; [|done].
  by destruct (toolInstance _ _).
Qed.

(** A denied call of a tool whose name the registry has. *)
Lemma processPart_denied (messages : list UIMessage.t)
    (executions : Executions) (part : UIPart.t) :
  YES APPROVAL ≠ NO APPROVAL →
  isStaticToolUIPart part = true →
  in_object (toolName_of part) executions = true →
  UIPart.state part = Some "output-available" →
  UIPart.output part = JString (NO APPROVAL) →
  let denial := JString "Error: User denied access to tool execution" in
  processPart messages executions part
  = ([ Written {| chunk_type := "tool-output-available";
                  chunk_toolCallId := UIPart.toolCallId part;
                  chunk_output := denial |} ],
     Normal (UIPart.with_output part denial)).
Proof.
  intros Htokens Hstatic Hin Hstate Houtput denial.
  rewrite processPart_unfold. cbv zeta. rewrite Hstatic, Hin.
  rewrite (proj2 (is_string_true _ _) Hstate), Houtput.
  rewrite strict_eq_string_ne by done. by rewrite strict_eq_string_refl.
Qed.

(** What [processPart] makes of a part: nothing, or a new output for a
    part that was to be resolved, announced by the one chunk it writes. *)
Lemma processPart_result (messages : list UIMessage.t)
    (executions : Executions) (part part' : UIPart.t) :
  snd (processPart messages executions part) = Normal part' →
  (processPart messages executions part = ([], Normal part) ∧ part' = part)
  ∨ (Decided executions part
     ∧ part' = UIPart.with_output part (UIPart.output part')
     ∧ chunks (fst (processPart messages executions part)) = [chunk_of part']).
Proof.
  rewrite processPart_unfold. cbv zeta. unfold Decided, Token.
  destruct (isStaticToolUIPart part); simpl; [|by intros [= <-]; left].
  destruct (in_object _ _) eqn:Hin; simpl; [|by intros [= <-]; left].
  apply in_object_true in Hin.
  destruct (is_string _ _) eqn:Hstate; simpl; [|by intros [= <-]; left].
  apply is_string_true in Hstate.
  destruct (strict_eq_string _ (YES _)) eqn:Hyes.
  - apply strict_eq_string_true in Hyes.
    destruct (get _ _) as [[toolInstance|]|];
      [destruct (convertToModelMessages messages) as [modelMessages|];
         [destruct (toolInstance _ _); [|done]|done]
      |by destruct (convertToModelMessages messages)|];
      simpl; intros [= <-]; right; repeat split; auto.
  - destruct (strict_eq_string _ (NO _)) eqn:Hno; simpl; intros [= <-];
      [|by left].
    apply strict_eq_string_true in Hno. right. repeat split; auto.
Qed.

Lemma processPart_framed (messages : list UIMessage.t)
    (executions : Executions) (part part' : UIPart.t) :
  snd (processPart messages executions part) = Normal part' →
  FramedPart executions part part'.
Proof.
  intros [[_ ->]|(Hdecided & -> & _)]%processPart_result; [by left|].
  right. split; [done|]. apply with_output_SameButOutput.
Qed.

(** *** From one part to the whole run *)

Lemma Promise_all_effects {E A : Type} (promises : list (E * Completion A)) :
  fst (Promise_all promises) = map fst promises.
Proof.
  induction promises as [|[effects r] promises IH]; simpl; [done|].
  destruct (Promise_all promises) as [effects' rs]. simpl in *. by rewrite IH.
Qed.

Lemma Promise_all_Normal {E A : Type} (promises : list (E * Completion A))
    (l : list A) :
  snd (Promise_all promises) = Normal l ↔
  Forall2 (λ promise a, snd promise = Normal a) promises l.
Proof.
  revert l. induction promises as [|[effects r] promises IH]; intros l; simpl.
  - split; [by intros [= <-]; constructor | by inversion 1].
  - destruct (Promise_all promises) as [effects' rs]. simpl in *. split.
    + destruct r as [a|], rs as [l'|]; intros [= <-].
      constructor; [done | by apply IH].
    + inversion 1 as [|? a ? l' Ha Hl]; subst. simpl in Ha. subst r.
      apply IH in Hl. by rewrite Hl.
Qed.

Lemma Forall2_Normal_functional {A B E : Type} (f : A → E * Completion B)
    (l : list A) (k k' : list B) :
  Forall2 (λ a b, snd (f a) = Normal b) l k →
  Forall2 (λ a b, snd (f a) = Normal b) l k' → k = k'.
Proof.
  intros H. revert k'. induction H as [|a b l k Hb _ IH]; intros k' H';
    inversion H' as [|? b' ? k'' Hb' Hk'']; subst; [done|].
  f_equal; [congruence | by apply IH].
Qed.

Lemma processMessage_effects (messages : list UIMessage.t)
    (executions : Executions) (message : UIMessage.t) :
  fst (processMessage messages executions message)
  = map (λ part, fst (processPart messages executions part))
      (default [] (UIMessage.parts message)).
Proof.
  unfold processMessage. destruct (UIMessage.parts message) as [parts|]; [|done].
  simpl. rewrite <- (map_map (processPart messages executions) fst).
  etrans; [|apply (Promise_all_effects
                     (map (processPart messages executions) parts))].
  by destruct (Promise_all _).
Qed.

Lemma processMessage_Normal (messages : list UIMessage.t)
    (executions : Executions) (message message' : UIMessage.t) :
  snd (processMessage messages executions message) = Normal message' ↔
  match UIMessage.parts message with
  | None => message' = message
  | Some parts =>
      ∃ parts',
        message' = UIMessage.with_parts message parts'
        ∧ Forall2 (λ part part',
                     snd (processPart messages executions part) = Normal part')
            parts parts'
  end.
Proof.
  unfold processMessage. destruct (UIMessage.parts message) as [parts|].
  - destruct (Promise_all _) as [effects r] eqn:Hall.
    assert (snd (Promise_all (map (processPart messages executions) parts)) = r)
      as Hr by by rewrite Hall.
    destruct r as [processedParts|]; simpl.
    + apply Promise_all_Normal, Forall2_fmap_l in Hr. split.
      * intros [= <-]. by exists processedParts.
      * intros (parts' & -> & Hparts'). do 2 f_equal.
        by eapply Forall2_Normal_functional.
    + split; [done|]. intros (parts' & _ & Hparts').
      apply (Forall2_fmap_l (processPart messages executions)
               (λ promise a, snd promise = Normal a)), Promise_all_Normal in Hparts'.
      assert (@Throw (list UIPart.t) = Normal parts') as [=].
      rewrite <- Hr. exact Hparts'.
  - simpl. split; [by intros [= <-] | by intros ->].
Qed.

Lemma processToolCalls_effects (messages : list UIMessage.t)
    (executions : Executions) :
  fst (processToolCalls messages executions)
  = map (λ message,
           map (λ part, fst (processPart messages executions part))
             (default [] (UIMessage.parts message))) messages.
Proof.
  unfold processToolCalls.
  destruct (Promise_all _) as [effects r] eqn:Hall.
  assert (effects = fst (Promise_all
            (map (processMessage messages executions) messages))) as ->
    by by rewrite Hall.
  rewrite Promise_all_effects, map_map. simpl.
  apply map_ext. intros m. apply processMessage_effects.
Qed.

Lemma processToolCalls_Normal (messages : list UIMessage.t)
    (executions : Executions) (processed : list UIMessage.t) :
  snd (processToolCalls messages executions) = Normal processed ↔
  Forall2 (λ message message',
             snd (processMessage messages executions message) = Normal message')
    messages processed.
Proof.
  etrans; [|etrans;
    [ apply (Promise_all_Normal
               (map (processMessage messages executions) messages) processed)
    | apply (Forall2_fmap_l (processMessage messages executions)
               (λ promise a, snd promise = Normal a)) ]].
  unfold processToolCalls.
  by destruct (Promise_all _) as [effects [l|]].
Qed.

(** Where a part of the input stands, a part of the returned list stands:
    what [processPart] made of it. *)
Lemma processToolCalls_lookup (messages processed : list UIMessage.t)
    (executions : Executions) (i j : nat) (message : UIMessage.t)
    (parts : list UIPart.t) (part : UIPart.t) :
  snd (processToolCalls messages executions) = Normal processed →
  messages !! i = Some message → UIMessage.parts message = Some parts →
  parts !! j = Some part →
  ∃ message' parts' part',
    processed !! i = Some message'
    ∧ UIMessage.parts message' = Some parts'
    ∧ parts' !! j = Some part'
    ∧ snd (processPart messages executions part) = Normal part'.
Proof.
  intros Hrun Hi Hparts Hj. apply processToolCalls_Normal in Hrun.
  destruct (Forall2_lookup_l _ _ _ _ _ Hrun Hi) as (message' & Hi' & Hmessage').
  apply processMessage_Normal in Hmessage'. rewrite Hparts in Hmessage'.
  destruct Hmessage' as (parts' & -> & Hall).
  destruct (Forall2_lookup_l _ _ _ _ _ Hall Hj) as (part' & Hj' & Hpart').
  by exists (UIMessage.with_parts message parts'), parts', part'.
Qed.

(** What the callback of a part did stands in the run at the part's place;
    and nothing else stands in the run. *)
Lemma processToolCalls_effects_at (messages : list UIMessage.t)
    (executions : Executions) (i j : nat) (of_part : list Effect) :
  effects_at (fst (processToolCalls messages executions)) i j = Some of_part ↔
  ∃ message parts part,
    messages !! i = Some message ∧ UIMessage.parts message = Some parts
    ∧ parts !! j = Some part
    ∧ of_part = fst (processPart messages executions part).
Proof.
  rewrite processToolCalls_effects. unfold effects_at.
  change (map ?f messages) with (f <$> messages).
  rewrite list_lookup_fmap.
  destruct (messages !! i) as [message|]; simpl;
    [|split; [done | by intros (? & ? & ? & [=] & _)]].
  change (map ?f ?l !! j) with ((f <$> l) !! j).
  rewrite list_lookup_fmap.
  destruct (UIMessage.parts message) as [parts|] eqn:Hparts; simpl.
  - destruct (parts !! j) as [part|] eqn:Hj; simpl.
    + split.
      * intros [= <-]. by exists message, parts, part.
      * intros (? & ? & ? & [= <-] & Hparts' & Hj' & ->).
        rewrite Hparts in Hparts'. injection Hparts' as <-.
        rewrite Hj in Hj'. by injection Hj' as <-.
    + split; [done|]. intros (? & ? & ? & [= <-] & Hparts' & Hj' & _).
      rewrite Hparts in Hparts'. injection Hparts' as <-. congruence.
  - split; [done|]. intros (? & ? & ? & [= <-] & Hparts' & _). congruence.
Qed.

(** C1.  A static tool part whose tool name has an executor in the registry,
    in state [output-available], with the approval token as its output, in
    a list of messages that the projection projects: the callback of the
    part calls that executor once, with the part's input and with the
    projected list and the call id as options, and calls nothing else.  When
    the run returns a list, the executor has returned a result, the one chunk
    with the call id and the result has been written after the call, and at
    the part's place in the returned list stands a part that has the result
    for its output and is the part in everything else. *)
Theorem processToolCalls_approved (messages : list UIMessage.t)
    (executions : Executions) (i j : nat) (message : UIMessage.t)
    (parts : list UIPart.t) (part : UIPart.t) (toolInstance : Executor)
    (modelMessages : list ModelMessage) :
  messages !! i = Some message → UIMessage.parts message = Some parts →
  parts !! j = Some part →
  isStaticToolUIPart part = true →
  executions !! toolName_of part = Some (Some toolInstance) →
  UIPart.state part = Some "output-available" →
  UIPart.output part = JString (YES APPROVAL) →
  convertToModelMessages messages = Normal modelMessages →
  let options := {| ctx_messages := modelMessages;
                    ctx_toolCallId := UIPart.toolCallId part |} in
  let run := processToolCalls messages executions in
  ∃ effects,
    effects_at (fst run) i j = Some effects
    ∧ invocations effects
      = [Invoke (toolName_of part) (UIPart.input part) options]
    ∧ ∀ processed,
        snd run = Normal processed →
        ∃ result message' parts' part',
          toolInstance (UIPart.input part) options = Normal result
          ∧ effects
            = [ Invoke (toolName_of part) (UIPart.input part) options;
                Written {| chunk_type := "tool-output-available";
                           chunk_toolCallId := UIPart.toolCallId part;
                           chunk_output := result |} ]
          ∧ processed !! i = Some message'
          ∧ UIMessage.parts message' = Some parts'
          ∧ parts' !! j = Some part'
          ∧ UIPart.output part' = result
          ∧ SameButOutput part part'.
Proof.
  intros Hi Hparts Hj Hstatic Hown Hstate Houtput Hprojected options run.
  pose proof (processPart_approved messages _ _ _ Hstatic Hown Hstate Houtput)
    as Hpart.
  rewrite Hprojected in Hpart. cbv zeta in Hpart. fold options in Hpart.
  exists (fst (processPart messages executions part)).
  split; [apply processToolCalls_effects_at; by exists message, parts, part|].
  split.
  - rewrite Hpart. by destruct (toolInstance (UIPart.input part) options).
  - intros processed Hrun.
    destruct (processToolCalls_lookup _ _ _ _ _ _ _ _ Hrun Hi Hparts Hj)
      as (message' & parts' & part' & Hi' & Hparts' & Hj' & Hpart').
    revert Hpart'. rewrite Hpart.
    destruct (toolInstance (UIPart.input part) options) as [result|]; [|done].
    simpl. intros [= <-].
    exists result, message', parts', (UIPart.with_output part result).
    by repeat split.
Qed.

(** C2, as the code has it.  A static tool part whose tool name is a key of
    the registry, in state [output-available], with the denial token as its
    output (the two tokens being different): the callback of the part calls
    no executor, and writes one chunk with the call id and the fixed text
    ["Error: User denied access to tool execution"]; when the run returns a
    list, at the part's place stands a part that has that text for its
    output and is the part in everything else.  The text is not empty,
    starts with ["Error:"] and names the denial; it is the same whatever the
    registry holds. *)
Theorem processToolCalls_denied (messages : list UIMessage.t)
    (executions : Executions) (i j : nat) (message : UIMessage.t)
    (parts : list UIPart.t) (part : UIPart.t) :
  YES APPROVAL ≠ NO APPROVAL →
  messages !! i = Some message → UIMessage.parts message = Some parts →
  parts !! j = Some part →
  isStaticToolUIPart part = true →
  is_Some (executions !! toolName_of part) →
  UIPart.state part = Some "output-available" →
  UIPart.output part = JString (NO APPROVAL) →
  let denial := "Error: User denied access to tool execution" in
  let run := processToolCalls messages executions in
  effects_at (fst run) i j
  = Some [ Written {| chunk_type := "tool-output-available";
                      chunk_toolCallId := UIPart.toolCallId part;
                      chunk_output := JString denial |} ]
  ∧ (∀ processed,
       snd run = Normal processed →
       ∃ message' parts' part',
         processed !! i = Some message'
         ∧ UIMessage.parts message' = Some parts'
         ∧ parts' !! j = Some part'
         ∧ UIPart.output part' = JString denial
         ∧ SameButOutput part part')
  ∧ denial ≠ "" ∧ startsWith denial "Error:" = true
  ∧ includes denial "denied" = true.
Proof.
  intros Htokens Hi Hparts Hj Hstatic Hown Hstate Houtput denial run.
  pose proof (processPart_denied messages executions part Htokens Hstatic
                (in_object_own _ _ Hown) Hstate Houtput) as Hpart.
  cbv zeta in Hpart. split; [|split; [|done]].
  - apply processToolCalls_effects_at. exists message, parts, part.
    by rewrite Hpart.
  - intros processed Hrun.
    destruct (processToolCalls_lookup _ _ _ _ _ _ _ _ Hrun Hi Hparts Hj)
      as (message' & parts' & part' & Hi' & Hparts' & Hj' & Hpart').
    rewrite Hpart in Hpart'. injection Hpart' as <-.
    exists message', parts', (UIPart.with_output part (JString denial)).
    by repeat split.
Qed.

(** C6.  The list a run returns has a message for each message of the
    input, in the same order; each keeps its id, role and metadata, and has
    a part for each of its parts, in the same order.  A part comes back as
    it is, unless it was to be resolved: a static tool part in state
    [output-available] that holds a decision token under a tool name the
    registry has; such a part may come back with another output, and is the
    same in everything else. *)
Theorem processToolCalls_frame (messages processed : list UIMessage.t)
    (executions : Executions) :
  snd (processToolCalls messages executions) = Normal processed →
  Forall2 (FramedMessage executions) messages processed.
Proof.
  intros Hrun. apply processToolCalls_Normal in Hrun.
  eapply Forall2_impl; [exact Hrun|]. clear Hrun.
  intros message message' Hmessage. apply processMessage_Normal in Hmessage.
  unfold FramedMessage. destruct (UIMessage.parts message) as [parts|] eqn:Hparts.
  - destruct Hmessage as (parts' & -> & Hall). simpl. repeat split.
    eapply Forall2_impl; [exact Hall|]. apply processPart_framed.
  - subst message'. by rewrite Hparts.
Qed.

(** A run none of whose parts the resolver has business with returns its
    input and has no effect. *)
Lemma with_parts_same (message : UIMessage.t) (parts : list UIPart.t) :
  UIMessage.parts message = Some parts →
  UIMessage.with_parts message parts = message.
Proof. destruct message. simpl. by intros ->. Qed.

Lemma Promise_all_settled {A B E : Type} (f : A → E * Completion B)
    (g : A → B) (l : list A) :
  Forall (λ a, snd (f a) = Normal (g a)) l →
  snd (Promise_all (map f l)) = Normal (map g l).
Proof.
  intros H. apply Promise_all_Normal. apply Forall2_fmap_l, Forall2_fmap_r.
  by apply Forall_Forall2_diag.
Qed.

Lemma processMessage_unchanged (messages : list UIMessage.t)
    (executions : Executions) (message : UIMessage.t) :
  Forall (λ part, processPart messages executions part = ([], Normal part))
    (default [] (UIMessage.parts message)) →
  processMessage messages executions message
  = (map (λ _, []) (default [] (UIMessage.parts message)), Normal message).
Proof.
  intros Hall. apply injective_projections.
  - rewrite processMessage_effects. apply map_ext_Forall.
    eapply Forall_impl; [exact Hall|]. by intros part ->.
  - simpl. apply processMessage_Normal.
    destruct (UIMessage.parts message) as [parts|] eqn:Hparts; [|done].
    exists parts. split; [by rewrite with_parts_same|].
    apply Forall_Forall2_diag. eapply Forall_impl; [exact Hall|].
    by intros part ->.
Qed.

Lemma processToolCalls_unchanged (messages : list UIMessage.t)
    (executions : Executions) :
  Forall (λ message,
            Forall (λ part,
                      processPart messages executions part = ([], Normal part))
              (default [] (UIMessage.parts message))) messages →
  snd (processToolCalls messages executions) = Normal messages
  ∧ quiet (fst (processToolCalls messages executions)).
Proof.
  intros Hall. split.
  - apply processToolCalls_Normal, Forall_Forall2_diag.
    eapply Forall_impl; [exact Hall|]. intros message Hparts.
    by rewrite processMessage_unchanged.
  - intros e (i & j & of_part & Hat & He).
    apply processToolCalls_effects_at in Hat
      as (message & parts & part & Hi & Hparts & Hj & ->).
    eapply Forall_lookup_1 in Hall; [|exact Hi]. rewrite Hparts in Hall.
    eapply Forall_lookup_1 in Hall; [|exact Hj]. rewrite Hall in He.
    by inversion He.
Qed.

(** Over an empty registry that is every run in which no tool part is named
    like a member of [Object.prototype]. *)
Lemma processPart_empty_registry (messages : list UIMessage.t)
    (part : UIPart.t) :
  inherited (toolName_of part) = false →
  processPart messages ∅ part = ([], Normal part).
Proof.
  intros H. apply processPart_unchanged. right. left.
  by apply in_object_false.
Qed.

Lemma processToolCalls_empty_registry (messages : list UIMessage.t) :
  Forall (λ message,
            Forall (λ part, inherited (toolName_of part) = false)
              (default [] (UIMessage.parts message))) messages →
  snd (processToolCalls messages ∅) = Normal messages
  ∧ quiet (fst (processToolCalls messages ∅)).
Proof.
  intros Hall. apply processToolCalls_unchanged.
  eapply Forall_impl; [exact Hall|]. intros message Hparts.
  eapply Forall_impl; [exact Hparts|]. intros part.
  apply processPart_empty_registry.
Qed.

(** An approved call of a tool that is no key of the registry, but is named
    like a function of [Object.prototype]: the function is called. *)
Lemma processPart_approved_inherited (messages : list UIMessage.t)
    (executions : Executions) (part : UIPart.t) :
  isStaticToolUIPart part = true →
  executions !! toolName_of part = None →
  inherited (toolName_of part) = true →
  toolName_of part ≠ "__proto__" →
  UIPart.state part = Some "output-available" →
  UIPart.output part = JString (YES APPROVAL) →
  processPart messages executions part
  = match convertToModelMessages messages with
    | Normal modelMessages =>
        let options := {| ctx_messages := modelMessages;
                          ctx_toolCallId := UIPart.toolCallId part |} in
        match Object_prototype_call (toolName_of part) (UIPart.input part)
                options with
        | Normal result =>
            ([ Invoke (toolName_of part) (UIPart.input part) options;
               Written {| chunk_type := "tool-output-available";
                          chunk_toolCallId := UIPart.toolCallId part;
                          chunk_output := result |} ],
             Normal (UIPart.with_output part result))
        | Throw =>
            ([Invoke (toolName_of part) (UIPart.input part) options], Throw)
        end
    | Throw => ([], Throw)
    end.
Proof.
  intros Hstatic Hown Hinherited Hproto Hstate Houtput.
  rewrite processPart_unfold. cbv zeta.
  unfold in_object, get. rewrite Hstatic, Hown, Hinherited, orb_true_r.
  rewrite (proj2 (is_string_true _ _) Hstate), Houtput, strict_eq_string_refl.
  rewrite (proj2 (String.eqb_neq _ _) Hproto). simpl.
  destruct (convertToModelMessages messages) as [modelMessages|]; [|done].
  by destruct (Object_prototype_call _ _ _).
Qed.

(** C3, at a part the code does not leave alone.  The registry of scenario A
    has no executor named [toString], yet for an approved call of a tool of
    that name the resolver, once the list is projected, calls the member of
    [Object.prototype] it finds under the name, as if it were the tool's
    executor, and resolves the part with what the call returns; when the
    list is not projected the callback rejects.  In no case is the part
    returned as it is. *)
Theorem processPart_calls_inherited_member (messages : list UIMessage.t) :
  let part := toStringPart (YES APPROVAL) in
  weatherExecutions !! toolName_of part = None
  ∧ processPart messages weatherExecutions part
    = match convertToModelMessages messages with
      | Normal modelMessages =>
          let options := {| ctx_messages := modelMessages;
                            ctx_toolCallId := Some "call-3" |} in
          match Object_prototype_call "toString" Paris options with
          | Normal result =>
              ([ Invoke "toString" Paris options;
                 Written {| chunk_type := "tool-output-available";
                            chunk_toolCallId := Some "call-3";
                            chunk_output := result |} ],
               Normal (toolPart "toString" "call-3" "output-available" Paris
                         result))
          | Throw => ([Invoke "toString" Paris options], Throw)
          end
      | Throw => ([], Throw)
      end.
Proof.
  intros part. split; [reflexivity|].
  by rewrite processPart_approved_inherited.
Qed.

(** C10, at a list the run does not return as it is.  The remote-tool agent
    passes an empty registry, yet for an approved call of a tool named
    [toString] its resolution pass, once the list is projected, calls the
    member of [Object.prototype] of that name, and then writes a chunk and
    returns the part with a new output, or rejects; when the list is not
    projected the pass rejects. *)
Theorem FlightAgent_reconcile_calls_inherited_member :
  let message := assistantMessage "m1" [toStringPart (YES APPROVAL)] in
  FlightAgent_reconcile [message]
  = match convertToModelMessages [message] with
    | Normal modelMessages =>
        let options := {| ctx_messages := modelMessages;
                          ctx_toolCallId := Some "call-3" |} in
        match Object_prototype_call "toString" Paris options with
        | Normal result =>
            ([[[ Invoke "toString" Paris options;
                 Written {| chunk_type := "tool-output-available";
                            chunk_toolCallId := Some "call-3";
                            chunk_output := result |} ]]],
             Normal [ assistantMessage "m1"
                        [toolPart "toString" "call-3" "output-available" Paris
                           result] ])
        | Throw => ([[[Invoke "toString" Paris options]]], Throw)
        end
    | Throw => ([[[]]], Throw)
    end.
Proof.
  intros message. unfold FlightAgent_reconcile.
  change (cleanupMessages [message]) with [message].
  unfold processToolCalls, processMessage. simpl map.
  rewrite processPart_approved_inherited by done.
  change (toolName_of (toStringPart (YES APPROVAL))) with "toString".
  change (UIPart.input (toStringPart (YES APPROVAL))) with Paris.
  change (UIPart.toolCallId (toStringPart (YES APPROVAL))) with (Some "call-3").
  destruct (convertToModelMessages [message]) as [modelMessages|]; [|done].
  cbv zeta.
  by destruct (Object_prototype_call "toString" Paris _).
Qed.

(** ** Strings *)

Lemma append_cons (c : ascii) (s t : string) :
  String c s +:+ t = String c (s +:+ t).
Proof. reflexivity. Qed.

Lemma append_nil_r (s : string) : s +:+ "" = s.
Proof. induction s as [|c s IH]; [done|]. by rewrite append_cons, IH. Qed.

Lemma append_assoc (s t u : string) : (s +:+ t) +:+ u = s +:+ t +:+ u.
Proof. induction s as [|c s IH]; [done|]. by rewrite !append_cons, IH. Qed.

Lemma startsWith_spec (s prefix : string) :
  startsWith s prefix = true ↔ ∃ rest, s = prefix +:+ rest.
Proof.
  revert s. induction prefix as [|c prefix IH]; intros s; simpl.
  - split; [by exists s | done].
  - destruct s as [|d s]; [split; [done | by intros [? [=]]]|].
    rewrite andb_true_iff, Ascii.eqb_eq, IH. split.
    + intros [-> [rest ->]]. by exists rest.
    + intros [rest [= -> ->]]. split; [done | by exists rest].
Qed.

Lemma includes_unfold (s t : string) :
  includes s t
  = startsWith s t
    || match s with EmptyString => false | String _ s' => includes s' t end.
Proof. by destruct s. Qed.

Lemma includes_spec (s t : string) :
  includes s t = true ↔ ∃ before after, s = before +:+ t +:+ after.
Proof.
  induction s as [|c s IH]; rewrite includes_unfold, orb_true_iff, startsWith_spec.
  - split.
    + intros [[rest ->]|[=]]. by exists "", rest.
    + intros (before & after & H). left. exists after.
      by destruct before, t.
  - rewrite IH. split.
    + intros [[rest ->]|(before & after & ->)]; [by exists "", rest|].
      by exists (String c before), after.
    + intros ([|d before] & after & H); [left; by exists after|].
      injection H as -> ->. right. by exists before, after.
Qed.

Lemma includes_middle (before t after : string) :
  includes (before +:+ t +:+ after) t = true.
Proof. apply includes_spec. by exists before, after. Qed.

Lemma includes_trans (s t u : string) :
  includes s t = true → includes t u = true → includes s u = true.
Proof.
  rewrite !includes_spec. intros (a & b & ->) (a' & b' & ->).
  exists (a +:+ a'), (b' +:+ b). by rewrite !append_assoc.
Qed.

Lemma includes_concat (separator line : string) (lines : list string) :
  line ∈ lines → includes (String.concat separator lines) line = true.
Proof.
  induction lines as [|l [|l' lines] IH]; [by inversion 1| |].
  - intros ->%list_elem_of_singleton. apply includes_spec.
    exists "", "". by rewrite append_nil_r.
  - intros [->|Hin]%elem_of_cons; cbn [String.concat].
    + apply (includes_middle ""%string).
    + apply includes_spec. apply IH, includes_spec in Hin as (a & b & Heq).
      exists (l +:+ separator +:+ a), b.
      cbn [String.concat] in Heq. by rewrite Heq, !append_assoc.
Qed.

(** ** The loops of the transformer *)

Lemma forOf_nil {A S : Type} (s : S) (body : S → A → Completion S) :
  forOf [] s body = Normal s.
Proof. reflexivity. Qed.

Lemma forOf_Throw {A S : Type} (xs : list A) (body : S → A → Completion S) :
  fold_left (λ c x, s' ← c; body s' x) xs Throw = Throw.
Proof. by induction xs. Qed.

Lemma forOf_cons {A S : Type} (x : A) (xs : list A) (s : S)
    (body : S → A → Completion S) :
  forOf (x :: xs) s body = s' ← body s x; forOf xs s' body.
Proof.
  unfold forOf. simpl. destruct (body s x); [done|]. apply forOf_Throw.
Qed.

(** A loop throws when its body throws on an element of the list, come
    what may before. *)
Lemma forOf_throws {A S : Type} (xs : list A) (x : A) (s : S)
    (body : S → A → Completion S) :
  x ∈ xs → (∀ s, body s x = Throw) → forOf xs s body = Throw.
Proof.
  intros Hin Hx. revert s. induction xs as [|y xs IH]; intros s;
    [by inversion Hin|].
  rewrite forOf_cons. apply elem_of_cons in Hin as [<-|Hin].
  - by rewrite Hx.
  - destruct (body s y); [by apply IH | done].
Qed.

(** When the body only appends, what a round has appended is still there
    at the end. *)
Lemma forOf_prefix {A B : Type} (xs : list A) (s s' : list B)
    (body : list B → A → Completion (list B)) :
  (∀ s x s', body s x = Normal s' → s `prefix_of` s') →
  forOf xs s body = Normal s' → s `prefix_of` s'.
Proof.
  intros Hbody. revert s. induction xs as [|x xs IH]; intros s.
  - by intros [= <-].
  - rewrite forOf_cons. destruct (body s x) as [s1|] eqn:Hs1; [|done].
    simpl. intros H. etrans; [by eapply Hbody | by apply IH].
Qed.

Lemma forOf_round {A B : Type} (xs : list A) (x : A) (s s' : list B)
    (body : list B → A → Completion (list B)) :
  (∀ s x s', body s x = Normal s' → s `prefix_of` s') →
  forOf xs s body = Normal s' → x ∈ xs →
  ∃ s1 s2, body s1 x = Normal s2 ∧ s2 `prefix_of` s'.
Proof.
  intros Hbody. revert s. induction xs as [|y xs IH]; intros s; [by inversion 2|].
  rewrite forOf_cons. destruct (body s y) as [s1|] eqn:Hs1; [|done].
  simpl. intros H [->|Hin]%elem_of_cons.
  - exists s, s1. split; [done|]. by eapply forOf_prefix.
  - by eapply IH.
Qed.

(** ** The transformer *)

Lemma priceOf_rendered (offer : Offer.t) (price : Price.t) :
  Offer.price offer = Some price → priceOf offer = Normal (rendered_price price).
Proof.
  intros H. unfold priceOf, rendered_price, template_string. rewrite H.
  do 2 f_equal. destruct (is_string _ _) eqn:Heur.
  - apply is_string_true in Heur. by rewrite decide_True.
  - rewrite decide_False; [done|]. intros Heur'%is_string_true. congruence.
Qed.

Lemma formatSegment_prefix (lines lines' : list string) (seg : Segment.t) :
  formatSegment lines seg = Normal lines' → lines `prefix_of` lines'.
Proof.
  unfold formatSegment.
  destruct (formatTimeOf (Segment.departure seg)); [|done].
  destruct (formatTimeOf (Segment.arrival seg)); [|done].
  destruct (formatDurationOf (Segment.duration seg)); [|done].
  intros [= <-]. by apply prefix_app_r.
Qed.

(** Every itinerary gets a headline that ends the airline's name, or the
    flight number, with [" - "] and the price. *)
Lemma formatItinerary_lines (airlineName price : string) (offer : Offer.t)
    (lines lines' : list string) (itinerary : Itinerary.t) :
  formatItinerary airlineName price offer lines itinerary = Normal lines' →
  lines `prefix_of` lines'
  ∧ ∃ line, line ∈ lines' ∧ includes line (" - " +:+ price) = true.
Proof.
  clear convertToModelMessages APPROVAL Object_prototype_call
    Object_prototype_text.
  unfold formatItinerary.
  destruct (formatDurationOf (Itinerary.duration itinerary)) as [total|]; [|done].
  simpl.
  destruct (default [] (Itinerary.segments itinerary)) as [|seg [|seg' segs]].
  - rewrite forOf_nil. simpl. intros [= <-]. split.
    + rewrite <- app_assoc. by apply prefix_app_r.
    + match goal with |- context [(lines ++ [?h])%list] => exists h end.
      split; [rewrite !elem_of_app, !elem_of_cons; tauto|]. apply includes_spec.
      eexists ("• " +:+ airlineName), _. by rewrite !append_assoc.
  - destruct (formatTimeOf (Segment.departure seg)); [|done].
    destruct (formatTimeOf (Segment.arrival seg)); [|done].
    simpl. intros [= <-]. split; [by apply prefix_app_r|].
    match goal with |- context [(lines ++ ?h :: _)%list] => exists h end.
    split; [rewrite !elem_of_app, !elem_of_cons; tauto|]. apply includes_spec.
    exists ("• " +:+ airlineName +:+ " "
            +:+ template_string (Segment.flightNumber seg)), "".
    by rewrite !append_assoc, append_nil_r.
  - destruct (forOf _ _ _) as [lines1|] eqn:Hloop; [|done].
    simpl. intros [= <-].
    apply forOf_prefix in Hloop; [|intros ???; apply formatSegment_prefix].
    split.
    + apply prefix_app_r. etrans; [|exact Hloop]. by apply prefix_app_r.
    + match type of Hloop with (lines ++ [?h])%list `prefix_of` _ => exists h end.
      split.
      * apply elem_of_app. left. eapply elem_of_prefix; [|exact Hloop].
        rewrite !elem_of_app, !elem_of_cons; tauto.
      * apply includes_spec.
        eexists ("• " +:+ airlineName), _. by rewrite !append_assoc.
Qed.

Lemma formatOffer_prefix (carriers : gmap string string)
    (lines lines' : list string) (offer : Offer.t) :
  formatOffer carriers lines offer = Normal lines' → lines `prefix_of` lines'.
Proof.
  unfold formatOffer. destruct (priceOf offer) as [price|]; [|done]. simpl.
  apply forOf_prefix. intros s it s' H.
  by apply formatItinerary_lines in H as [H _].
Qed.

Lemma formatOffer_price (carriers : gmap string string)
    (lines lines' : list string) (offer : Offer.t) (price : Price.t) :
  Offer.price offer = Some price →
  default [] (Offer.itineraries offer) ≠ [] →
  formatOffer carriers lines offer = Normal lines' →
  ∃ line, line ∈ lines' ∧ includes line (" - " +:+ rendered_price price) = true.
Proof.
  intros Hprice Hitineraries. unfold formatOffer.
  rewrite (priceOf_rendered _ _ Hprice). simpl. intros Hloop.
  destruct (default [] (Offer.itineraries offer)) as [|itinerary itineraries];
    [done|].
  eapply (forOf_round _ itinerary) in Hloop as (s1 & s2 & Hround & Hprefix);
    [| by intros s it s' H; apply formatItinerary_lines in H as [H _]
     | apply elem_of_cons; by left ].
  apply formatItinerary_lines in Hround as [_ (line & Hline & Hincludes)].
  exists line. split; [by eapply elem_of_prefix|done].
Qed.

(** The transformer throws as soon as one offer of the list has no price. *)
Lemma formatFlightResults_missing_price (flightData : FlightData.t)
    (offers : list Offer.t) (offer : Offer.t) :
  FlightData.offers flightData = Some offers → offer ∈ offers →
  Offer.price offer = None →
  formatFlightResults (Object flightData) = Throw.
Proof.
  intros Hoffers Hoffer Hprice. simpl. rewrite Hoffers.
  rewrite (forOf_throws offers offer); [done|done|].
  intros lines. unfold formatOffer, priceOf. by rewrite Hprice.
Qed.

(** C7, at an argument on which the transformer throws.  Whatever else the
    argument holds, one offer without a price in its [offers] array makes
    [formatFlightResults] throw: [offer.price.currency] is read without a
    guard, where the other properties of an offer are read with one. *)
Theorem formatFlightResults_throws_on_missing_price (flightData : FlightData.t)
    (offers : list Offer.t) (offer : Offer.t) :
  FlightData.offers flightData = Some offers → offer ∈ offers →
  Offer.price offer = None →
  formatFlightResults (Object flightData) = Throw.
Proof. apply formatFlightResults_missing_price. Qed.

(** C8, as the code has it.  For the input of scenario D the transformer
    returns the headline ["Found 1 flights:"] and the three lines of the one
    offer; the text includes ["Found 1 flights:"],
    ["Air Bravo AB123 - €100"], ["Departs: 9:00 AM → Arrives: 11:30 AM"],
    ["2h 30m, nonstop"] and ["Seats available: 3"]. *)
Theorem formatFlightResults_scenarioD :
  ∃ text,
    formatFlightResults scenarioD = Normal (Text text)
    ∧ text = String.concat newline
               [ "Found 1 flights:" +:+ newline;
                 "• Air Bravo AB123 - €100";
                 "  Departs: 9:00 AM → Arrives: 11:30 AM (2h 30m, nonstop)";
                 "  Seats available: 3";
                 "" ]
    ∧ includes text "Found 1 flights:" = true
    ∧ includes text "Air Bravo AB123 - €100" = true
    ∧ includes text "Departs: 9:00 AM → Arrives: 11:30 AM" = true
    ∧ includes text "2h 30m, nonstop" = true
    ∧ includes text "Seats available: 3" = true.
Proof. eexists. split; [vm_compute; reflexivity|]. by vm_compute. Qed.

(** C9, as the code has it.  Every offer that has a price and an itinerary is
    printed with a headline that ends in [" - "], the sign, and the total:
    the sign is ["€"] when the currency is exactly ["EUR"] and ["$"] for
    every other currency, and for none. *)
Theorem formatFlightResults_price (flightData : FlightData.t)
    (offers : list Offer.t) (offer : Offer.t) (price : Price.t) (text : string) :
  FlightData.offers flightData = Some offers → offer ∈ offers →
  Offer.price offer = Some price →
  default [] (Offer.itineraries offer) ≠ [] →
  formatFlightResults (Object flightData) = Normal (Text text) →
  includes text
    (" - " +:+ (if decide (Price.currency price = Some "EUR") then "€" else "$")
     +:+ default "undefined" (Price.total price)) = true.
Proof.
  intros Hoffers Hoffer Hprice Hitineraries. simpl. rewrite Hoffers.
  destruct (forOf offers _ _) as [lines|] eqn:Hloop; [|done].
  simpl. intros [= <-].
  eapply (forOf_round _ offer) in Hloop as (s1 & s2 & Hround & Hprefix);
    [|by intros s o s' H; eapply formatOffer_prefix|done].
  destruct (formatOffer_price _ _ _ _ _ Hprice Hitineraries Hround)
    as (line & Hline & Hincludes).
  eapply includes_trans; [|exact Hincludes].
  apply includes_concat. by eapply elem_of_prefix.
Qed.

(** * Further properties *)

(** ** The resolver: what runs, what is written, what fails *)

Lemma processPart_invoke (messages : list UIMessage.t)
    (executions : Executions) (part : UIPart.t) (toolName : string)
    (args : JsValue) (options : ToolCallOptions) :
  Invoke toolName args options ∈ fst (processPart messages executions part) →
  isStaticToolUIPart part = true
  ∧ UIPart.state part = Some "output-available"
  ∧ UIPart.output part = JString (YES APPROVAL)
  ∧ toolName = toolName_of part
  ∧ in_object toolName executions = true
  ∧ args = UIPart.input part
  ∧ ∃ modelMessages,
      convertToModelMessages messages = Normal modelMessages
      ∧ options = {| ctx_messages := modelMessages;
                     ctx_toolCallId := UIPart.toolCallId part |}.
Proof.
  rewrite processPart_unfold. cbv zeta.
  destruct (isStaticToolUIPart part); simpl; [|by inversion 1].
  destruct (in_object _ _) eqn:Hin; simpl; [|by inversion 1].
  destruct (is_string _ _) eqn:Hstate; simpl; [|by inversion 1].
  apply is_string_true in Hstate.
  destruct (strict_eq_string _ (YES _)) eqn:Hyes.
  - apply strict_eq_string_true in Hyes.
    destruct (get _ _) as [[toolInstance|]|];
      [destruct (convertToModelMessages messages) as [modelMessages|];
         [destruct (toolInstance _ _)|]
      |destruct (convertToModelMessages messages) as [modelMessages|]|];
      simpl; rewrite ?elem_of_cons, ?elem_of_nil; intros H;
      repeat (destruct H as [H|H]); try done;
      injection H as -> -> ->; repeat split; try done; by eexists.
  - destruct (strict_eq_string _ (NO _)); simpl;
      rewrite ?elem_of_cons, ?elem_of_nil; intros H;
      repeat (destruct H as [H|H]); done.
Qed.

(** X1.  The resolver calls through the registry only for a static tool part
    in state [output-available] whose output is the approval token, under
    the part's tool name, with the part's input and call id and with the
    list the projection has returned. *)
Theorem processToolCalls_invokes_only_approved (messages : list UIMessage.t)
    (executions : Executions) (toolName : string) (args : JsValue)
    (options : ToolCallOptions) :
  performed (fst (processToolCalls messages executions))
    (Invoke toolName args options) →
  ∃ message parts part,
    message ∈ messages ∧ UIMessage.parts message = Some parts ∧ part ∈ parts
    ∧ isStaticToolUIPart part = true
    ∧ UIPart.state part = Some "output-available"
    ∧ UIPart.output part = JString (YES APPROVAL)
    ∧ toolName = toolName_of part
    ∧ in_object toolName executions = true
    ∧ args = UIPart.input part
    ∧ ∃ modelMessages,
        convertToModelMessages messages = Normal modelMessages
        ∧ options = {| ctx_messages := modelMessages;
                       ctx_toolCallId := UIPart.toolCallId part |}.
Proof.
  intros (i & j & of_part & Hat & He).
  apply processToolCalls_effects_at in Hat
    as (message & parts & part & Hi & Hparts & Hj & ->).
  exists message, parts, part.
  split; [by eapply list_elem_of_lookup_2|].
  split; [done|]. split; [by eapply list_elem_of_lookup_2|].
  by apply processPart_invoke in He.
Qed.

Lemma elem_of_chunks (effects : list Effect) (chunk : UIMessageChunk) :
  chunk ∈ chunks effects ↔ Written chunk ∈ effects.
Proof.
  unfold chunks. rewrite list_elem_of_omap. split.
  - by intros ([] & H & [= ->]).
  - intros H. by exists (Written chunk).
Qed.

(** X2.  Every chunk a returning run has written announces, under its call
    id, the output that a part of the returned list holds. *)
Theorem processToolCalls_chunks_announce_outputs
    (messages processed : list UIMessage.t) (executions : Executions)
    (chunk : UIMessageChunk) :
  snd (processToolCalls messages executions) = Normal processed →
  performed (fst (processToolCalls messages executions)) (Written chunk) →
  ∃ i j message' parts' part',
    processed !! i = Some message' ∧ UIMessage.parts message' = Some parts'
    ∧ parts' !! j = Some part' ∧ chunk = chunk_of part'.
Proof.
  intros Hrun (i & j & of_part & Hat & He).
  apply processToolCalls_effects_at in Hat
    as (message & parts & part & Hi & Hparts & Hj & ->).
  destruct (processToolCalls_lookup _ _ _ _ _ _ _ _ Hrun Hi Hparts Hj)
    as (message' & parts' & part' & Hi' & Hparts' & Hj' & Hpart').
  exists i, j, message', parts', part'. repeat split; try done.
  apply processPart_result in Hpart' as [[Hnone _]|(_ & _ & Hchunks)].
  - rewrite Hnone in He. by inversion He.
  - apply elem_of_chunks in He. rewrite Hchunks in He.
    by apply list_elem_of_singleton in He.
Qed.

(** X3.  When a run returns, every part that is not returned as it came was
    announced: the chunk with its call id and its new output was written. *)
Theorem processToolCalls_changes_are_announced
    (messages processed : list UIMessage.t) (executions : Executions)
    (i j : nat) (message message' : UIMessage.t) (parts parts' : list UIPart.t)
    (part part' : UIPart.t) :
  snd (processToolCalls messages executions) = Normal processed →
  messages !! i = Some message → UIMessage.parts message = Some parts →
  parts !! j = Some part →
  processed !! i = Some message' → UIMessage.parts message' = Some parts' →
  parts' !! j = Some part' →
  part' ≠ part →
  performed (fst (processToolCalls messages executions))
    (Written (chunk_of part')).
Proof.
  intros Hrun Hi Hparts Hj Hi' Hparts' Hj' Hchanged.
  destruct (processToolCalls_lookup _ _ _ _ _ _ _ _ Hrun Hi Hparts Hj)
    as (message0 & parts0 & part0 & Hi0 & Hparts0 & Hj0 & Hpart0).
  simplify_eq.
  exists i, j, (fst (processPart messages executions part)). split.
  { apply processToolCalls_effects_at. by exists message, parts, part. }
  apply processPart_result in Hpart0 as [[_ ->]|(_ & _ & Hchunks)]; [done|].
  apply elem_of_chunks. rewrite Hchunks. by apply list_elem_of_singleton.
Qed.

(** X4.  An approved call makes the whole run reject, so that no list is
    returned, when the projection of the list rejects, and when the
    projection returns and the executor rejects.  In the first case the
    callback of the part has called nothing, in the second it has called the
    executor once; in neither has it written a chunk. *)
Theorem processToolCalls_rejects (messages : list UIMessage.t)
    (executions : Executions) (i j : nat) (message : UIMessage.t)
    (parts : list UIPart.t) (part : UIPart.t) (toolInstance : Executor) :
  messages !! i = Some message → UIMessage.parts message = Some parts →
  parts !! j = Some part →
  isStaticToolUIPart part = true →
  executions !! toolName_of part = Some (Some toolInstance) →
  UIPart.state part = Some "output-available" →
  UIPart.output part = JString (YES APPROVAL) →
  (∀ modelMessages,
     convertToModelMessages messages = Normal modelMessages →
     toolInstance (UIPart.input part)
       {| ctx_messages := modelMessages;
          ctx_toolCallId := UIPart.toolCallId part |} = Throw) →
  snd (processToolCalls messages executions) = Throw
  ∧ effects_at (fst (processToolCalls messages executions)) i j
    = Some match convertToModelMessages messages with
           | Normal modelMessages =>
               [Invoke (toolName_of part) (UIPart.input part)
                  {| ctx_messages := modelMessages;
                     ctx_toolCallId := UIPart.toolCallId part |}]
           | Throw => []
           end.
Proof.
  intros Hi Hparts Hj Hstatic Hown Hstate Houtput Hthrow.
  pose proof (processPart_approved messages _ _ _ Hstatic Hown Hstate Houtput)
    as Hpart.
  assert (snd (processPart messages executions part) = Throw) as Hrejects.
  { rewrite Hpart.
    destruct (convertToModelMessages messages) as [modelMessages|]; [|done].
    cbv zeta. by rewrite (Hthrow modelMessages eq_refl). }
  split.
  - destruct (snd (processToolCalls messages executions)) as [processed|]
      eqn:Hrun; [|done].
    destruct (processToolCalls_lookup _ _ _ _ _ _ _ _ Hrun Hi Hparts Hj)
      as (? & ? & ? & _ & _ & _ & Hpart').
    by rewrite Hrejects in Hpart'.
  - apply processToolCalls_effects_at. exists message, parts, part.
    repeat split; try done. rewrite Hpart.
    destruct (convertToModelMessages messages) as [modelMessages|]; [|done].
    cbv zeta. by rewrite (Hthrow modelMessages eq_refl).
Qed.

(** X5.  An approved call of a tool whose key in the registry holds no
    function is resolved without any call and without the projection: the
    callback writes one chunk with the fixed text ["Error: No execute
    function found on tool"] and returns a part that has that text for its
    output and is the part in everything else. *)
Theorem processPart_no_execute_function (messages : list UIMessage.t)
    (executions : Executions) (part : UIPart.t) :
  isStaticToolUIPart part = true →
  executions !! toolName_of part = Some None →
  UIPart.state part = Some "output-available" →
  UIPart.output part = JString (YES APPROVAL) →
  let result := JString "Error: No execute function found on tool" in
  ∃ part',
    processPart messages executions part
    = ([Written {| chunk_type := "tool-output-available";
                   chunk_toolCallId := UIPart.toolCallId part;
                   chunk_output := result |}],
       Normal part')
    ∧ UIPart.output part' = result
    ∧ SameButOutput part part'.
Proof.
  intros Hstatic Hown Hstate Houtput result.
  exists (UIPart.with_output part result). split; [|by repeat split].
  rewrite processPart_unfold. cbv zeta.
  rewrite Hstatic, in_object_own by by rewrite Hown.
  rewrite (proj2 (is_string_true _ _) Hstate), Houtput, strict_eq_string_refl.
  unfold get. by rewrite Hown.
Qed.

Lemma toolName_of_with_output (part : UIPart.t) (result : JsValue) :
  toolName_of (UIPart.with_output part result) = toolName_of part.
Proof. reflexivity. Qed.

(** A part that came out of a pass with an output that is no token is left
    alone by the next pass, whatever list that pass runs on. *)
Lemma processPart_settled (messages messages' : list UIMessage.t)
    (executions : Executions) (part part' : UIPart.t) :
  (∀ toolName toolInstance args options result,
     get executions toolName = Some (Callable toolInstance) →
     toolInstance args options = Normal result → ¬ Token result) →
  ¬ Token (JString "Error: User denied access to tool execution") →
  ¬ Token (JString "Error: No execute function found on tool") →
  snd (processPart messages executions part) = Normal part' →
  processPart messages' executions part' = ([], Normal part').
Proof.
  intros Hexecutors Hdenial Hmissing.
  rewrite processPart_unfold. cbv zeta.
  assert (∀ result, ¬ Token result →
            isStaticToolUIPart part = true →
            processPart messages' executions (UIPart.with_output part result)
            = ([], Normal (UIPart.with_output part result))) as Hsettled.
  { intros result Hresult Hstatic. apply processPart_unchanged.
    do 3 right. unfold Token in Hresult. simpl. split; intros ->; tauto. }
  destruct (isStaticToolUIPart part) eqn:Hstatic; simpl.
  2:{ intros [= <-]. apply processPart_unchanged. by left. }
  destruct (in_object _ _) eqn:Hin; simpl.
  2:{ intros [= <-]. apply processPart_unchanged. right. by left. }
  destruct (is_string _ _) eqn:Hstate; simpl.
  2:{ intros [= <-]. apply processPart_unchanged. do 2 right. left.
      intros Hstate'%is_string_true. congruence. }
  destruct (strict_eq_string _ (YES _)) eqn:Hyes.
  - destruct (get _ _) as [[toolInstance|]|] eqn:Hget.
    + destruct (convertToModelMessages messages) as [modelMessages|]; [|done].
      cbv zeta.
      destruct (toolInstance _ _) as [result|] eqn:Hcall; [|done].
      simpl. intros [= <-]. apply Hsettled; [|done]. by eapply Hexecutors.
    + by destruct (convertToModelMessages messages).
    + simpl. intros [= <-]. by apply Hsettled.
  - destruct (strict_eq_string _ (NO _)) eqn:Hno; simpl; intros [= <-].
    + by apply Hsettled.
    + apply processPart_unchanged. do 3 right.
      split; intros Houtput; rewrite Houtput, strict_eq_string_refl in *; done.
Qed.

(** X6.  When no executor the registry can reach returns a decision token,
    and the two fixed error texts are no tokens either, a second pass over
    the list a pass has returned calls nothing, writes nothing and returns
    the list as it is. *)
Theorem processToolCalls_second_pass (messages processed : list UIMessage.t)
    (executions : Executions) :
  (∀ toolName toolInstance args options result,
     get executions toolName = Some (Callable toolInstance) →
     toolInstance args options = Normal result → ¬ Token result) →
  ¬ Token (JString "Error: User denied access to tool execution") →
  ¬ Token (JString "Error: No execute function found on tool") →
  snd (processToolCalls messages executions) = Normal processed →
  snd (processToolCalls processed executions) = Normal processed
  ∧ quiet (fst (processToolCalls processed executions)).
Proof.
  intros Hexecutors Hdenial Hmissing Hrun.
  apply processToolCalls_unchanged. apply Forall_lookup.
  intros i message' Hi'. apply Forall_lookup. intros j part' Hj'.
  apply processToolCalls_Normal in Hrun.
  destruct (Forall2_lookup_r _ _ _ _ _ Hrun Hi')
    as (message & Hi & Hmessage).
  apply processMessage_Normal in Hmessage.
  destruct (UIMessage.parts message) as [parts|] eqn:Hparts.
  - destruct Hmessage as (parts' & -> & Hall). simpl in Hj'.
    destruct (Forall2_lookup_r _ _ _ _ _ Hall Hj') as (part & Hj & Hpart).
    by eapply processPart_settled.
  - subst message'. by rewrite Hparts in Hj'.
Qed.

(** X7.  An executor that answers with the approval token leaves the part
    as it was, approved: on a list the projection projects the callback
    returns the part unchanged, and on every later list the projection
    projects it calls the executor again. *)
Theorem processPart_reexecutes_token_result
    (messages messages' : list UIMessage.t) (executions : Executions)
    (part : UIPart.t) (toolInstance : Executor)
    (modelMessages modelMessages' : list ModelMessage) :
  isStaticToolUIPart part = true →
  executions !! toolName_of part = Some (Some toolInstance) →
  UIPart.state part = Some "output-available" →
  UIPart.output part = JString (YES APPROVAL) →
  convertToModelMessages messages = Normal modelMessages →
  convertToModelMessages messages' = Normal modelMessages' →
  toolInstance (UIPart.input part)
    {| ctx_messages := modelMessages;
       ctx_toolCallId := UIPart.toolCallId part |}
  = Normal (JString (YES APPROVAL)) →
  snd (processPart messages executions part) = Normal part
  ∧ invocations (fst (processPart messages' executions part))
    = [Invoke (toolName_of part) (UIPart.input part)
         {| ctx_messages := modelMessages';
            ctx_toolCallId := UIPart.toolCallId part |}].
Proof.
  intros Hstatic Hown Hstate Houtput Hprojected Hprojected' Hcall.
  rewrite !(processPart_approved _ _ _ _ Hstatic Hown Hstate Houtput).
  rewrite Hprojected, Hprojected'. cbv zeta. rewrite Hcall. split.
  - simpl. f_equal. rewrite <- Houtput. apply with_output_same.
  - match goal with
    | |- context [toolInstance ?a ?o] => by destruct (toolInstance a o)
    end.
Qed.

Lemma processPart_keeps_completeness (messages : list UIMessage.t)
    (executions : Executions) (part part' : UIPart.t) :
  snd (processPart messages executions part) = Normal part' →
  isIncompleteToolCall part' = isIncompleteToolCall part.
Proof.
  intros [[_ ->]|((Hstatic & Hstate & _) & -> & _)]%processPart_result; [done|].
  unfold isIncompleteToolCall, isStaticToolUIPart. simpl.
  by rewrite Hstate.
Qed.

Lemma processMessage_keeps_completeness (messages : list UIMessage.t)
    (executions : Executions) (message message' : UIMessage.t) :
  snd (processMessage messages executions message) = Normal message' →
  keepMessage message' = keepMessage message.
Proof.
  intros H%processMessage_Normal. unfold keepMessage.
  destruct (UIMessage.parts message) as [parts|] eqn:Hparts;
    [|subst; by rewrite Hparts].
  destruct H as (parts' & -> & Hall). simpl. f_equal. clear Hparts.
  induction Hall as [|part part' parts parts' Hpart _ IH]; cbn [existsb];
    [done|].
  by rewrite IH, (processPart_keeps_completeness _ _ _ _ Hpart).
Qed.

Lemma processToolCalls_keeps_completeness (messages processed : list UIMessage.t)
    (executions : Executions) :
  snd (processToolCalls messages executions) = Normal processed →
  map keepMessage processed = map keepMessage messages.
Proof.
  intros Hrun%processToolCalls_Normal.
  induction Hrun as [|m m' ms ms' Hm _ IH]; simpl; [done|].
  by rewrite IH, (processMessage_keeps_completeness _ _ _ _ Hm).
Qed.

Lemma filter_all {A : Type} (f : A → bool) (l : list A) :
  Forall (λ a, f a = true) l → List.filter f l = l.
Proof. induction 1 as [|a l Ha _ IH]; simpl; [done|]. by rewrite Ha, IH. Qed.

(** X8.  A pass never makes a tool call incomplete, nor complete: the
    sanitizer keeps a returned message exactly when it keeps the message it
    came from.  So the list the fixed-tool agent hands on, sanitized and then
    resolved, is one the sanitizer would return as it is. *)
Theorem ChatAgent_reconcile_sanitized (messages processed : list UIMessage.t)
    (executions : Executions) :
  snd (ChatAgent_reconcile executions messages) = Normal processed →
  cleanupMessages processed = processed.
Proof.
  unfold ChatAgent_reconcile. intros Hrun%processToolCalls_keeps_completeness.
  apply filter_all.
  assert (Forall (λ m, keepMessage m = true) (cleanupMessages messages)) as Hkept.
  { apply Forall_forall. intros m Hm%list_elem_of_In%filter_In. tauto. }
  revert Hrun Hkept. generalize (cleanupMessages messages) as kept.
  induction processed as [|m' ms' IH]; intros [|m ms]; simpl; try done.
  intros [= Hm Hms] [Hkeep Hkept]%Forall_cons.
  constructor; [congruence | by eapply IH].
Qed.


(** ** The sanitizer: what it leaves, what it keeps *)

(** X9.  No message of the list [cleanupMessages] returns holds a static
    tool part in state [input-streaming], or in state [input-available]
    with neither an output nor an error text set; and it returns its
    argument as it is exactly when no message of the argument holds one. *)
Theorem cleanupMessages_clean (messages : list UIMessage.t) :
  Forall (λ m, ¬ HasIncompletePart m) (cleanupMessages messages)
  ∧ (cleanupMessages messages = messages
     ↔ Forall (λ m, ¬ HasIncompletePart m) messages).
Proof.
  split.
  - apply Forall_forall. by intros m [_ Hm]%cleanupMessages_elem_of.
  - split.
    + intros Heq. apply Forall_forall. intros m Hm.
      rewrite <- Heq in Hm. by apply cleanupMessages_elem_of in Hm as [_ ?].
    + intros Hall. apply filter_all. eapply Forall_impl; [exact Hall|].
      intros m. by rewrite keepMessage_true.
Qed.

(** X10.  A message is kept whenever each of its static tool parts has left
    the two input states: a message with no parts, with no tool part, with
    dynamic tool parts only, or whose tool calls all have an outcome. *)
Theorem cleanupMessages_keeps_settled (messages : list UIMessage.t)
    (m : UIMessage.t) :
  m ∈ messages →
  (∀ parts part,
     UIMessage.parts m = Some parts → part ∈ parts →
     isStaticToolUIPart part = true →
     UIPart.state part ≠ Some "input-streaming"
     ∧ UIPart.state part ≠ Some "input-available") →
  m ∈ cleanupMessages messages.
Proof.
  intros Hm Hsettled. apply cleanupMessages_elem_of. split; [done|].
  intros (parts & part & Hparts & Hpart & Hstatic & Hstate).
  destruct (Hsettled parts part Hparts Hpart Hstatic) as [Hstreaming Havailable].
  destruct Hstate as [?|[? _]]; done.
Qed.

(** X11.  The sanitizer keeps the message [executeTask] appends for a
    scheduled task, at the end, and treats the messages before it as it did
    without it; the resolver returns the message as it is, and the callback
    of its one part calls nothing and writes nothing. *)
Theorem executeTask_appends (id : string) (createdAt : JsValue)
    (description : string) (messages resolved : list UIMessage.t)
    (executions : Executions) :
  cleanupMessages (executeTask id createdAt description messages)
    = (cleanupMessages messages ++ [taskMessage id createdAt description])%list
  ∧ processMessage resolved executions (taskMessage id createdAt description)
    = ([[]], Normal (taskMessage id createdAt description)).
Proof.
  split.
  - unfold executeTask, cleanupMessages. by rewrite List.filter_app.
  - by rewrite processMessage_unchanged by by repeat constructor.
Qed.

(** ** Durations *)

Lemma is_digit_not_space (c : ascii) : is_digit c = true → is_space c = false.
Proof.
  unfold is_digit, is_space. generalize (nat_of_ascii c) as n. intros n.
  rewrite andb_true_iff, orb_false_iff, andb_false_iff, !Nat.leb_le,
    !Nat.leb_gt, Nat.eqb_neq. lia.
Qed.

Lemma digits_app (d rest : string) :
  digits_only d = true → no_leading_digit rest = true →
  digits (d +:+ rest) = (d, rest).
Proof.
  intros Hd Hrest. induction d as [|c d IH]; simpl in *.
  - destruct rest as [|c rest]; [done|]. simpl in *.
    by apply negb_true_iff in Hrest as ->.
  - apply andb_true_iff in Hd as [Hc Hd]. rewrite ?append_cons. simpl.
    by rewrite Hc, IH.
Qed.

Lemma optional_group_some (X : ascii) (d rest : string) :
  is_digit X = false → digits_only d = true → d ≠ "" →
  optional_group X (d +:+ String X rest) = (Some d, rest).
Proof.
  intros HX Hd Hne. unfold optional_group.
  rewrite digits_app by (by simpl; rewrite ?HX).
  destruct d; [done|]. by rewrite Ascii.eqb_refl.
Qed.

Lemma optional_group_other (X c : ascii) (d rest : string) :
  is_digit c = false → c ≠ X → digits_only d = true →
  optional_group X (d +:+ String c rest) = (None, d +:+ String c rest).
Proof.
  intros Hc Hne Hd. unfold optional_group.
  rewrite digits_app by (by simpl; rewrite ?Hc).
  destruct d; [done|]. by apply Ascii.eqb_neq in Hne as ->.
Qed.

Lemma optional_group_no_digit (X : ascii) (s : string) :
  no_leading_digit s = true → optional_group X s = (None, s).
Proof.
  intros Hs. unfold optional_group.
  pose proof (digits_app "" s eq_refl Hs) as Hdigits.
  change ("" +:+ s) with s in Hdigits. by rewrite Hdigits.
Qed.

Lemma trimEnd_nonspace (s : string) (c : ascii) :
  is_space c = false → trimEnd (s +:+ String c "") = s +:+ String c "".
Proof.
  intros Hc. induction s as [|a s IH].
  - simpl. by rewrite Hc.
  - rewrite append_cons. cbn [trimEnd]. rewrite IH. by destruct s.
Qed.

Lemma trimEnd_space (s : string) : trimEnd (s +:+ " ") = trimEnd s.
Proof.
  induction s as [|a s IH]; [done|].
  rewrite append_cons. cbn [trimEnd]. by rewrite IH.
Qed.

Lemma trim_count_unit (d : string) (unit : ascii) (before : string) :
  digits_only d = true → d ≠ "" → is_space unit = false →
  (∀ c s, before = String c s → is_space c = false) →
  trim (before +:+ d +:+ String unit "") = before +:+ d +:+ String unit "".
Proof.
  intros Hd Hne Hunit Hbefore. unfold trim.
  assert (trimStart (before +:+ d +:+ String unit "")
          = before +:+ d +:+ String unit "") as ->.
  { destruct before as [|c before].
    - destruct d as [|c d]; [done|]. simpl in Hd.
      apply andb_true_iff in Hd as [Hc%is_digit_not_space _].
      change ("" +:+ String c d +:+ String unit "")
        with (String c (d +:+ String unit "")).
      simpl. by rewrite Hc.
    - rewrite append_cons. simpl. by rewrite (Hbefore c before eq_refl). }
  rewrite <- append_assoc. by apply trimEnd_nonspace.
Qed.

(** X12.  [formatDuration] turns the hours and minutes of a duration into
    ["<h>h <m>m"], ["<h>h"] or ["<m>m"], with the digits as they were
    written, and into the empty text when the duration has neither; what
    follows the minutes (seconds, say) is dropped, and so is, after a
    duration without minutes, what does not begin with a digit. *)
Theorem formatDuration_hours_minutes (hours minutes : option string)
    (rest : string) :
  Count hours → Count minutes →
  (minutes = None → no_leading_digit rest = true) →
  formatDuration (iso_duration hours minutes +:+ rest)
  = readable_duration hours minutes.
Proof.
  intros Hhours Hminutes Hrest. unfold formatDuration, iso_duration.
  change ("PT" +:+ ?t) with (String "P" (String "T" t)).
  rewrite !append_cons. cbn [match_duration startsWith slice_from].
  change (("P" =? "P")%char && (("T" =? "T")%char && true)) with true.
  cbv iota. rewrite append_assoc.
  destruct hours as [h|], minutes as [m|]; simpl in Hhours, Hminutes;
    cbn [from_option readable_duration].
  - destruct Hhours as [Hh Hhne], Hminutes as [Hm Hmne].
    rewrite !append_assoc. change ("H" +:+ ?t) with (String "H" t).
    change ("M" +:+ ?t) with (String "M" t).
    rewrite optional_group_some, optional_group_some by done.
    assert (∀ t, (h +:+ "h") +:+ " " +:+ t = (h +:+ "h ") +:+ t) as ->
      by (intros t; by rewrite !append_assoc).
    rewrite <- (append_assoc h "h " (m +:+ "m")).
    apply (trim_count_unit m "m" (h +:+ "h ")); try done.
    intros c s Heq. destruct h as [|c' h]; [done|].
    rewrite append_cons in Heq. injection Heq as <- _. simpl in Hh.
    by apply andb_true_iff in Hh as [?%is_digit_not_space _].
  - destruct Hhours as [Hh Hhne]. specialize (Hrest eq_refl).
    change ("" +:+ rest) with rest. rewrite append_assoc.
    change ("H" +:+ rest) with (String "H" rest).
    rewrite optional_group_some, optional_group_no_digit by done.
    unfold trim. replace ((h +:+ "h") +:+ " " +:+ "") with ((h +:+ "h") +:+ " ")
      by done.
    assert (trimStart ((h +:+ "h") +:+ " ") = (h +:+ "h") +:+ " ") as ->.
    { destruct h as [|c h]; [done|]. rewrite !append_cons. simpl in *.
      by apply andb_true_iff in Hh as [->%is_digit_not_space _]. }
    rewrite trimEnd_space. by apply trimEnd_nonspace.
  - destruct Hminutes as [Hm Hmne].
    change ("" +:+ ?t) with t. rewrite append_assoc.
    change ("M" +:+ rest) with (String "M" rest).
    rewrite optional_group_other, optional_group_some by done.
    change ("" +:+ " " +:+ m +:+ "m") with (String " " (m +:+ String "m" "")).
    unfold trim. cbn [trimStart]. change (is_space " ") with true. cbv iota.
    apply (trim_count_unit m "m" ""); done.
  - specialize (Hrest eq_refl). change ("" +:+ "" +:+ rest) with rest.
    by rewrite optional_group_no_digit, optional_group_no_digit.
Qed.

Lemma match_duration_None (s : string) :
  includes s "PT" = false → match_duration s = None.
Proof.
  induction s as [|c s IH]; rewrite includes_unfold, orb_false_iff;
    intros [Hstart Hrest]; cbn [match_duration]; rewrite Hstart; [done|].
  by apply IH.
Qed.

(** X13.  A text in which ["PT"] does not occur, such as a duration of days
    only, comes back from [formatDuration] as it is. *)
Theorem formatDuration_without_time (isoDuration : string) :
  includes isoDuration "PT" = false → formatDuration isoDuration = isoDuration.
Proof.
  intros H. unfold formatDuration. by rewrite match_duration_None.
Qed.


(** ** Times *)

Lemma Digits_2 (s : string) :
  Digits 2 s →
  ∃ a b, s = String a (String b "") ∧ is_digit a = true ∧ is_digit b = true.
Proof.
  intros [Hlength Hdigits]. destruct s as [|a [|b [|c s]]]; try done.
  simpl in Hdigits. exists a, b.
  apply andb_true_iff in Hdigits as [Ha Hb]. rewrite andb_true_r in Hb. done.
Qed.

Lemma Digits_4 (s : string) :
  Digits 4 s →
  ∃ a b c d,
    s = String a (String b (String c (String d "")))
    ∧ is_digit a = true ∧ is_digit b = true
    ∧ is_digit c = true ∧ is_digit d = true.
Proof.
  intros [Hlength Hdigits]. destruct s as [|a [|b [|c [|d [|e s]]]]]; try done.
  simpl in Hdigits. exists a, b, c, d.
  repeat (apply andb_true_iff in Hdigits as [? Hdigits]). done.
Qed.

(** The pattern finds a time stamp that stands at the start of the text. *)
Lemma search_datetime_at_start
    (y1 y2 y3 y4 mo1 mo2 d1 d2 h1 h2 mi1 mi2 : ascii) (rest : string) :
  is_digit y1 = true → is_digit y2 = true → is_digit y3 = true →
  is_digit y4 = true → is_digit mo1 = true → is_digit mo2 = true →
  is_digit d1 = true → is_digit d2 = true → is_digit h1 = true →
  is_digit h2 = true → is_digit mi1 = true → is_digit mi2 = true →
  search datetime
    (String y1 (String y2 (String y3 (String y4 (String "-"
    (String mo1 (String mo2 (String "-" (String d1 (String d2 (String "T"
    (String h1 (String h2 (String ":" (String mi1 (String mi2 rest))))))))))))))))
  = Some
      (String y1 (String y2 (String y3 (String y4 (String "-"
      (String mo1 (String mo2 (String "-" (String d1 (String d2 (String "T"
      (String h1 (String h2 (String ":" (String mi1 (String mi2 "")))))))))))))))).
Proof.
  intros Hy1 Hy2 Hy3 Hy4 Hmo1 Hmo2 Hd1 Hd2 Hh1 Hh2 Hmi1 Hmi2.
  cbn [search]. unfold datetime.
  cbn [match_here atom_matches].
  rewrite Hy1, Hy2, Hy3, Hy4, Hmo1, Hmo2, Hd1, Hd2, Hh1, Hh2, Hmi1, Hmi2.
  rewrite !Ascii.eqb_refl. by destruct rest.
Qed.

Lemma is_digit_pad2 (n : nat) :
  (n < 100)%nat → Digits 2 (pad2 n).
Proof.
  intros Hn. split; [done|]. unfold pad2. cbn [digits_only].
  assert (∀ k, (k < 10)%nat → is_digit (ascii_of_nat (48 + k)) = true) as Hdigit.
  { intros k Hk. unfold is_digit. rewrite nat_ascii_embedding by lia.
    apply andb_true_iff. rewrite !Nat.leb_le. lia. }
  rewrite !Hdigit; [done| |].
  - apply Nat.mod_upper_bound. lia.
  - apply Nat.Div0.div_lt_upper_bound. lia.
Qed.

(** X14.  A time stamp [YYYY-MM-DDTHH:MM] at the start of a text, with an
    hour of the day, is written on the 12-hour clock: the hour without a
    leading zero (12 for midnight and for noon), the minutes as they stand,
    and [AM] before noon, [PM] from noon on; what follows the minutes
    (seconds, a zone) is dropped. *)
Theorem formatTime_12_hour (year month day minutes rest : string)
    (hour : nat) :
  Digits 4 year → Digits 2 month → Digits 2 day → (hour < 24)%nat →
  Digits 2 minutes →
  formatTime (year +:+ "-" +:+ month +:+ "-" +:+ day +:+ "T"
              +:+ pad2 hour +:+ ":" +:+ minutes +:+ rest)
  = Number_toString (Z.of_nat (hour12 hour)) +:+ ":" +:+ minutes +:+ " "
    +:+ (if (hour <? 12)%nat then "AM" else "PM").
Proof.
  intros (y1 & y2 & y3 & y4 & -> & Hy1 & Hy2 & Hy3 & Hy4)%Digits_4
    (mo1 & mo2 & -> & Hmo1 & Hmo2)%Digits_2
    (d1 & d2 & -> & Hd1 & Hd2)%Digits_2 Hhour
    (mi1 & mi2 & -> & Hmi1 & Hmi2)%Digits_2.
  destruct (is_digit_pad2 hour ltac:(lia)) as [_ Hpad].
  unfold formatTime.
  assert (∀ h1 h2, pad2 hour = String h1 (String h2 "") →
            search datetime
              (String y1 (String y2 (String y3 (String y4 ""))) +:+ "-"
               +:+ String mo1 (String mo2 "") +:+ "-"
               +:+ String d1 (String d2 "") +:+ "T" +:+ pad2 hour +:+ ":"
               +:+ String mi1 (String mi2 "") +:+ rest)
            = Some
                (String y1 (String y2 (String y3 (String y4 (String "-"
                (String mo1 (String mo2 (String "-" (String d1 (String d2
                (String "T" (String h1 (String h2 (String ":"
                (String mi1 (String mi2 "")))))))))))))))))
    as Hsearch.
  { intros h1 h2 Heq. rewrite Heq in Hpad |- *. simpl in Hpad.
    apply andb_true_iff in Hpad as [Hh1 Hh2]. rewrite andb_true_r in Hh2.
    by apply search_datetime_at_start. }
  do 24 (destruct hour as [|hour];
         [rewrite (Hsearch _ _ eq_refl); reflexivity|]).
  lia.
Qed.

(** ** The time of a segment *)

Lemma startsWith_cons (c d : ascii) (s prefix : string) :
  startsWith (String d s) (String c prefix)
  = Ascii.eqb c d && startsWith s prefix.
Proof. reflexivity. Qed.

Lemma no_space_includes (s : string) :
  no_space s = true → includes s " at " = false.
Proof.
  induction s as [|c s IH]; [done|]. cbn [no_space].
  intros [Hc Hs]%andb_true_iff. rewrite includes_unfold, IH by done.
  rewrite startsWith_cons.
  apply negb_true_iff in Hc. rewrite Ascii.eqb_sym in Hc. by rewrite Hc.
Qed.

Lemma split_without_separator (separator s : string) :
  includes s separator = false → split separator s = [s].
Proof.
  unfold split. induction s as [|c s IH]; [done|].
  rewrite includes_unfold, orb_false_iff. intros [Hstart Hrest].
  cbn [split_skipping]. rewrite Hstart. by rewrite IH.
Qed.

Lemma split_at (place rest : string) :
  no_space place = true →
  split " at " (place +:+ " at " +:+ rest) = place :: split " at " rest.
Proof.
  unfold split. induction place as [|c place IH]; [done|].
  cbn [no_space]. intros [Hc Hplace]%andb_true_iff. rewrite append_cons.
  cbn [split_skipping]. rewrite startsWith_cons.
  apply negb_true_iff in Hc. rewrite Ascii.eqb_sym in Hc. rewrite Hc.
  cbn [andb]. by rewrite IH.
Qed.

(** X15.  Of a departure or arrival written ["<place> at <time>"], place and
    time without a space, [formatFlightResults] formats the time and leaves
    the place out. *)
Theorem formatTimeOf_place_at_time (place time : string) :
  no_space place = true → no_space time = true → time ≠ "" →
  formatTimeOf (Some (place +:+ " at " +:+ time)) = Normal (formatTime time).
Proof.
  intros Hplace Htime Hne. unfold formatTimeOf.
  rewrite split_at, split_without_separator by by auto using no_space_includes.
  simpl. by apply String.eqb_neq in Hne as ->.
Qed.

(** X16.  A departure or arrival in which [" at "] does not occur is
    formatted whole. *)
Theorem formatTimeOf_without_place (text : string) :
  includes text " at " = false →
  formatTimeOf (Some text) = Normal (formatTime text).
Proof.
  intros H. unfold formatTimeOf. by rewrite split_without_separator.
Qed.


(** ** The transformer: when it throws, what it prints *)

Lemma forOf_Normal_inv {A S : Type} (P : A → Prop) (xs : list A) (s s' : S)
    (body : S → A → Completion S) :
  (∀ s x s', body s x = Normal s' → P x) →
  forOf xs s body = Normal s' → Forall P xs.
Proof.
  intros Hbody. revert s. induction xs as [|x xs IH]; intros s; [done|].
  rewrite forOf_cons. destruct (body s x) as [s1|] eqn:Hs1; [|done].
  simpl. intros H. constructor; [by eapply Hbody | by eapply IH].
Qed.

Lemma formatTimeOf_Normal_inv (property : option string) (time : string) :
  formatTimeOf property = Normal time → is_Some property.
Proof. by destruct property. Qed.

Lemma formatSegment_Normal_inv (lines lines' : list string) (seg : Segment.t) :
  formatSegment lines seg = Normal lines' →
  TimedSegment seg ∧ is_Some (Segment.duration seg).
Proof.
  unfold formatSegment, TimedSegment.
  destruct (formatTimeOf (Segment.departure seg)) eqn:Hdep; [|done].
  destruct (formatTimeOf (Segment.arrival seg)) eqn:Harr; [|done].
  destruct (Segment.duration seg); [|done].
  eauto using formatTimeOf_Normal_inv.
Qed.

Lemma formatItinerary_Normal_inv (airlineName price : string) (offer : Offer.t)
    (lines lines' : list string) (itinerary : Itinerary.t) :
  formatItinerary airlineName price offer lines itinerary = Normal lines' →
  CompleteItinerary itinerary.
Proof.
  clear convertToModelMessages APPROVAL Object_prototype_call
    Object_prototype_text.
  unfold formatItinerary, CompleteItinerary.
  destruct (Itinerary.duration itinerary) as [duration|]; [|done]. simpl.
  destruct (default [] (Itinerary.segments itinerary)) as [|seg [|seg' segs]].
  - intros _. repeat split; [by eexists|constructor|by constructor].
  - destruct (formatTimeOf (Segment.departure seg)) eqn:Hdep; [|done].
    destruct (formatTimeOf (Segment.arrival seg)) eqn:Harr; [|done].
    intros _. split; [by eexists|]. split; [|done].
    repeat constructor; by eapply formatTimeOf_Normal_inv.
  - destruct (forOf _ _ _) as [lines1|] eqn:Hloop; [|done]. intros _.
    apply (forOf_Normal_inv
             (λ seg, TimedSegment seg ∧ is_Some (Segment.duration seg)))
      in Hloop; [|by intros ???; apply formatSegment_Normal_inv].
    split; [by eexists|].
    split; [|intros _]; (eapply Forall_impl; [exact Hloop|]); by intros ? [??].
Qed.

Lemma formatOffer_Normal_inv (carriers : gmap string string)
    (lines lines' : list string) (offer : Offer.t) :
  formatOffer carriers lines offer = Normal lines' → CompleteOffer offer.
Proof.
  unfold formatOffer, CompleteOffer, priceOf.
  destruct (Offer.price offer) as [price|]; [|done]. simpl.
  intros Hloop. split; [by eexists|].
  eapply forOf_Normal_inv; [|exact Hloop].
  intros s itinerary s'. apply formatItinerary_Normal_inv.
Qed.

(** X17.  [formatFlightResults] returns only for an argument in which
    every offer has a price, every itinerary a duration, every segment a
    departure and an arrival, and every segment of an itinerary that has not
    exactly one segment a duration: for want of any of them it throws. *)
Theorem formatFlightResults_returns_only_complete (data : Unknown)
    (output : Output) :
  formatFlightResults data = Normal output → Complete data.
Proof.
  unfold Complete. destruct data as [value|flightData]; simpl.
  { by constructor. }
  destruct (FlightData.offers flightData) as [offers|]; simpl.
  2:{ by constructor. }
  destruct (forOf offers _ _) as [lines|] eqn:Hloop; [|done]. intros _.
  eapply forOf_Normal_inv; [|exact Hloop].
  intros s offer s'. apply formatOffer_Normal_inv.
Qed.

Lemma concat_startsWith (separator line : string) (lines : list string) :
  startsWith (String.concat separator (line :: lines)) line = true.
Proof.
  apply startsWith_spec. destruct lines as [|line' lines].
  - exists "". simpl. by rewrite append_nil_r.
  - by eexists.
Qed.

(** The transformer on an object with an [offers] array. *)
Lemma formatFlightResults_unfold (flightData : FlightData.t)
    (offers : list Offer.t) :
  FlightData.offers flightData = Some offers →
  formatFlightResults (Object flightData)
  = match forOf offers
            [ "Found "
              +:+ Number_toString (announced_count flightData offers)
              +:+ " flights:" +:+ newline ]
            (formatOffer (carriers_of flightData)) with
    | Normal lines => Normal (Text (String.concat newline lines))
    | Throw => Throw
    end.
Proof.
  intros Hoffers. unfold formatFlightResults. rewrite Hoffers. cbv zeta.
  assert (match FlightData.totalOffers flightData with
          | Some n => if (n =? 0)%Z then Z.of_nat (length offers) else n
          | None => Z.of_nat (length offers)
          end = announced_count flightData offers) as ->.
  { unfold announced_count.
    destruct (FlightData.totalOffers flightData) as [n|]; [|done].
    destruct (Z.eqb_spec n 0); [by rewrite decide_True | by rewrite decide_False]. }
  assert (default ∅ (dictionaries ← FlightData.dictionaries flightData;
                     Dictionaries.carriers dictionaries)
          = carriers_of flightData) as ->.
  { unfold carriers_of.
    by destruct (FlightData.dictionaries flightData) as [[[?|]]|]. }
  reflexivity.
Qed.

(** X18.  The text begins with the line ["Found <n> flights:"], where [n]
    is [totalOffers] when that is there and not zero, whatever the number of
    offers listed, and the number of offers otherwise; for an empty list of
    offers the text is that line alone. *)
Theorem formatFlightResults_headline (flightData : FlightData.t)
    (offers : list Offer.t) (text : string) :
  FlightData.offers flightData = Some offers →
  formatFlightResults (Object flightData) = Normal (Text text) →
  let headline :=
    "Found " +:+ Number_toString (announced_count flightData offers)
    +:+ " flights:" +:+ newline in
  startsWith text headline = true ∧ (offers = [] → text = headline).
Proof.
  intros Hoffers. rewrite (formatFlightResults_unfold _ _ Hoffers).
  destruct (forOf offers _ _) as [lines|] eqn:Hloop; [|done].
  intros [= <-]. split.
  - apply forOf_prefix in Hloop as [more ->];
      [|by intros s o s' H; eapply formatOffer_prefix].
    apply concat_startsWith.
  - intros ->. by injection Hloop as <-.
Qed.

Lemma formatItinerary_headline (airlineName price : string) (offer : Offer.t)
    (lines lines' : list string) (itinerary : Itinerary.t) :
  formatItinerary airlineName price offer lines itinerary = Normal lines' →
  ∃ line,
    line ∈ lines' ∧ startsWith line ("• " +:+ airlineName +:+ " ") = true
    ∧ match default [] (Itinerary.segments itinerary) with
      | [seg] =>
          ∃ duration depTime arrTime,
            Itinerary.duration itinerary = Some duration
            ∧ formatTimeOf (Segment.departure seg) = Normal depTime
            ∧ formatTimeOf (Segment.arrival seg) = Normal arrTime
            ∧ line = "• " +:+ airlineName +:+ " "
                     +:+ template_string (Segment.flightNumber seg)
                     +:+ " - " +:+ price
            ∧ ("  Departs: " +:+ depTime +:+ " → Arrives: " +:+ arrTime
               +:+ " (" +:+ formatDuration duration +:+ ", nonstop)") ∈ lines'
      | segments =>
          line = "• " +:+ airlineName +:+ " - " +:+ price +:+ " ("
                 +:+ Number_toString (Z.of_nat (length segments)) +:+ " stops)"
      end.
Proof.
  clear convertToModelMessages APPROVAL Object_prototype_call
    Object_prototype_text.
  unfold formatItinerary.
  destruct (Itinerary.duration itinerary) as [duration|]; [|done]. simpl.
  destruct (default [] (Itinerary.segments itinerary)) as [|seg [|seg' segs]].
  - rewrite forOf_nil. simpl. intros [= <-]. eexists. split; [|split; [|done]].
    + rewrite !elem_of_app, !elem_of_cons. tauto.
    + apply startsWith_spec. eexists. by rewrite !append_assoc.
  - destruct (formatTimeOf (Segment.departure seg)) as [depTime|]; [|done].
    destruct (formatTimeOf (Segment.arrival seg)) as [arrTime|]; [|done].
    simpl. intros [= <-]. eexists. split; [|split].
    + rewrite !elem_of_app, !elem_of_cons. tauto.
    + apply startsWith_spec. eexists. by rewrite !append_assoc.
    + exists duration, depTime, arrTime. repeat split.
      rewrite !elem_of_app, !elem_of_cons. tauto.
  - destruct (forOf _ _ _) as [lines1|] eqn:Hloop; [|done].
    simpl. intros [= <-].
    apply forOf_prefix in Hloop; [|intros ???; apply formatSegment_prefix].
    eexists. split; [|split; [|done]].
    + apply elem_of_app. left. eapply elem_of_prefix; [|exact Hloop].
      rewrite !elem_of_app, !elem_of_cons. tauto.
    + apply startsWith_spec. eexists. by rewrite !append_assoc.
Qed.


(** The code an offer is looked up under. *)
Lemma formatOffer_unfold (carriers : gmap string string) (lines : list string)
    (offer : Offer.t) :
  formatOffer carriers lines offer
  = (price ← priceOf offer;
     forOf (default [] (Offer.itineraries offer)) lines
       (formatItinerary
          (airlineName_of carriers
             match Offer.airlines offer with
             | Some (code :: _) => if String.eqb code "" then "Unknown" else code
             | _ => "Unknown"
             end) price offer)).
Proof. reflexivity. Qed.

Lemma airlineName_of_NamedAs (carriers : gmap string string) (offer : Offer.t)
    (name : string) :
  NamedAs carriers offer name →
  airlineName_of carriers
    match Offer.airlines offer with
    | Some (code :: _) => if String.eqb code "" then "Unknown" else code
    | _ => "Unknown"
    end = name.
Proof.
  unfold airlineName_of.
  intros [code codes name' -> Hcode Hname Hne
         |code codes -> Hcode [[Hnone Hinherited]|Hempty]
         |[->|[->|[codes ->]]] Hunknown];
    rewrite ?(proj2 (String.eqb_neq _ _) Hcode), ?String.eqb_refl.
  - rewrite Hname. by apply String.eqb_neq in Hne as ->.
  - by rewrite Hnone, Hinherited.
  - by rewrite Hempty.
  - by rewrite Hunknown.
  - by rewrite Hunknown.
  - by rewrite Hunknown.
Qed.

(** Every itinerary of every offer has had its round, and the lines of the
    round are in the text. *)
Lemma formatFlightResults_round (flightData : FlightData.t)
    (offers : list Offer.t) (offer : Offer.t) (itinerary : Itinerary.t)
    (text : string) :
  FlightData.offers flightData = Some offers → offer ∈ offers →
  itinerary ∈ default [] (Offer.itineraries offer) →
  formatFlightResults (Object flightData) = Normal (Text text) →
  ∃ price lines lines',
    priceOf offer = Normal price
    ∧ formatItinerary
        (airlineName_of (carriers_of flightData)
           match Offer.airlines offer with
           | Some (code :: _) => if String.eqb code "" then "Unknown" else code
           | _ => "Unknown"
           end) price offer lines itinerary = Normal lines'
    ∧ ∀ line, line ∈ lines' → includes text line = true.
Proof.
  intros Hoffers Hoffer Hitinerary.
  rewrite (formatFlightResults_unfold _ _ Hoffers).
  destruct (forOf offers _ _) as [all|] eqn:Hloop; [|done].
  intros [= <-].
  eapply (forOf_round _ offer) in Hloop as (s1 & s2 & Hround & Hprefix);
    [|by intros s o s' H; eapply formatOffer_prefix|done].
  rewrite formatOffer_unfold in Hround.
  destruct (priceOf offer) as [price|]; [|done].
  change (forOf (default [] (Offer.itineraries offer)) s1
            (formatItinerary
               (airlineName_of (carriers_of flightData)
                  match Offer.airlines offer with
                  | Some (code :: _) =>
                      if String.eqb code "" then "Unknown" else code
                  | _ => "Unknown"
                  end) price offer) = Normal s2) in Hround.
  eapply (forOf_round _ itinerary) in Hround as (l1 & l2 & Hround & Hprefix');
    [|by intros s it s' H; apply formatItinerary_lines in H as [H _]|done].
  exists price, l1, l2. split; [done|]. split; [done|].
  intros line Hline. apply includes_concat.
  eapply elem_of_prefix; [|exact Hprefix].
  by eapply elem_of_prefix.
Qed.

Lemma includes_after (before s t : string) :
  includes s t = true → includes (before +:+ s) t = true.
Proof.
  rewrite !includes_spec. intros (b & a & ->).
  exists (before +:+ b), a. by rewrite append_assoc.
Qed.

Lemma includes_refl (s : string) : includes s s = true.
Proof. apply includes_spec. exists "", "". by rewrite append_nil_r. Qed.

(** X19.  An itinerary that has not exactly one segment is announced with
    the number of its segments as its number of stops: [(2 stops)] for two
    segments, [(0 stops)] for none. *)
Theorem formatFlightResults_stops (flightData : FlightData.t)
    (offers : list Offer.t) (offer : Offer.t) (price : Price.t)
    (itinerary : Itinerary.t) (text : string) :
  FlightData.offers flightData = Some offers → offer ∈ offers →
  Offer.price offer = Some price →
  itinerary ∈ default [] (Offer.itineraries offer) →
  length (default [] (Itinerary.segments itinerary)) ≠ 1%nat →
  formatFlightResults (Object flightData) = Normal (Text text) →
  includes text
    (" - " +:+ rendered_price price +:+ " ("
     +:+ Number_toString
           (Z.of_nat (length (default [] (Itinerary.segments itinerary))))
     +:+ " stops)") = true.
Proof.
  intros Hoffers Hoffer Hprice Hitinerary Hlength Hrun.
  destruct (formatFlightResults_round _ _ _ _ _ Hoffers Hoffer Hitinerary Hrun)
    as (price' & lines & lines' & Hprice' & Hround & Htext).
  rewrite (priceOf_rendered _ _ Hprice) in Hprice'. injection Hprice' as <-.
  apply formatItinerary_headline in Hround as (line & Hline & _ & Hshape).
  eapply includes_trans; [by apply Htext|].
  revert Hlength Hshape.
  destruct (default [] (Itinerary.segments itinerary)) as [|seg [|seg' segs]];
    intros Hlength Hshape; [|done|]; subst line;
    do 2 apply includes_after; apply includes_refl.
Qed.

(** X20.  An itinerary of exactly one segment is printed as a nonstop
    flight: a line with the formatted departure and arrival of the segment
    and the formatted duration of the itinerary. *)
Theorem formatFlightResults_nonstop (flightData : FlightData.t)
    (offers : list Offer.t) (offer : Offer.t) (itinerary : Itinerary.t)
    (seg : Segment.t) (duration depTime arrTime text : string) :
  FlightData.offers flightData = Some offers → offer ∈ offers →
  itinerary ∈ default [] (Offer.itineraries offer) →
  Itinerary.segments itinerary = Some [seg] →
  Itinerary.duration itinerary = Some duration →
  formatTimeOf (Segment.departure seg) = Normal depTime →
  formatTimeOf (Segment.arrival seg) = Normal arrTime →
  formatFlightResults (Object flightData) = Normal (Text text) →
  includes text
    ("  Departs: " +:+ depTime +:+ " → Arrives: " +:+ arrTime
     +:+ " (" +:+ formatDuration duration +:+ ", nonstop)") = true.
Proof.
  intros Hoffers Hoffer Hitinerary Hsegments Hduration Hdep Harr Hrun.
  destruct (formatFlightResults_round _ _ _ _ _ Hoffers Hoffer Hitinerary Hrun)
    as (price & lines & lines' & _ & Hround & Htext).
  apply formatItinerary_headline in Hround as (line & _ & _ & Hshape).
  rewrite Hsegments in Hshape. simpl in Hshape.
  destruct Hshape as (duration' & depTime' & arrTime' & Hduration' & Hdep'
                      & Harr' & _ & Hline).
  apply Htext. congruence.
Qed.

(** X21.  The headline of an offer names it by the dictionary's name for its
    first airline code, by the code itself when the dictionary has no name
    for it, and by ["Unknown"] when the offer has no code. *)
Theorem formatFlightResults_airline (flightData : FlightData.t)
    (offers : list Offer.t) (offer : Offer.t) (name text : string) :
  FlightData.offers flightData = Some offers → offer ∈ offers →
  default [] (Offer.itineraries offer) ≠ [] →
  NamedAs (carriers_of flightData) offer name →
  formatFlightResults (Object flightData) = Normal (Text text) →
  includes text ("• " +:+ name +:+ " ") = true.
Proof.
  intros Hoffers Hoffer Hitineraries Hname Hrun.
  destruct (default [] (Offer.itineraries offer)) as [|itinerary itineraries]
    eqn:Hlist; [done|].
  assert (itinerary ∈ default [] (Offer.itineraries offer)) as Hitinerary
    by (rewrite Hlist; apply elem_of_cons; by left).
  destruct (formatFlightResults_round _ _ _ _ _ Hoffers Hoffer Hitinerary Hrun)
    as (price & lines & lines' & _ & Hround & Htext).
  rewrite (airlineName_of_NamedAs _ _ _ Hname) in Hround.
  apply formatItinerary_headline in Hround as (line & Hline & Hstart & _).
  eapply includes_trans; [by apply Htext|].
  apply startsWith_spec in Hstart as [rest ->]. apply (includes_middle "").
Qed.


(** ** The result transformer of the remote-tool agent *)

Lemma mapM_Normal {A B : Type} (f : A → Completion B) (l : list A)
    (k : list B) :
  mapM f l = Normal k ↔ Forall2 (λ a b, f a = Normal b) l k.
Proof.
  revert k. induction l as [|a l IH]; intros k; simpl.
  - split; [by intros [= <-]; constructor | by inversion 1].
  - split.
    + destruct (f a) as [b|] eqn:Hb; [|done]. simpl.
      destruct (mapM f l) as [k'|]; [|done]. simpl. intros [= <-].
      constructor; [done | by apply IH].
    + inversion 1 as [|? b ? k' Hb Hk]; subst. rewrite Hb. simpl.
      apply IH in Hk. by rewrite Hk.
Qed.

Lemma mapM_Throw {A B : Type} (f : A → Completion B) (l : list A) (a : A) :
  a ∈ l → f a = Throw → mapM f l = Throw.
Proof.
  intros Hin Ha. induction l as [|a' l IH]; [by inversion Hin|].
  simpl. apply elem_of_cons in Hin as [<-|Hin]; [by rewrite Ha|].
  destruct (f a'); [|done]. simpl. by rewrite IH.
Qed.

(** The guard of the transformer finds the objects with [offers]. *)
Lemma has_offers_spec (v : JsValue) : has_offers v = true ↔ HoldsOffers v.
Proof.
  destruct v as [| | | | | |properties]; simpl;
    try (split; [done | by inversion 1]).
  rewrite existsb_exists. split.
  - intros ([key offers] & Hin & Hkey%String.eqb_eq). simpl in Hkey. subst key.
    apply (HoldsOffers_object _ offers). by apply list_elem_of_In.
  - inversion 1 as [? offers Hin]; subst. exists ("offers", offers).
    split; [by apply list_elem_of_In | apply String.eqb_refl].
Qed.

Section TransformProperties.

Variable cast : JsValue → FlightData.t.
Variable JSON_text : Unknown → string.

Lemma transformPart_result (part part' : UIPart.t) :
  transformPart cast JSON_text part = Normal part' →
  TransformedPart cast JSON_text part part'.
Proof.
  unfold transformPart, TransformedPart, formatted.
  change (startsWith (UIPart.type part) "tool-") with (isStaticToolUIPart part).
  destruct (isStaticToolUIPart part) eqn:Hstatic; cbn [andb].
  2:{ intros [= <-]. split; [by intros [? _] | done]. }
  destruct (has_offers (UIPart.output part)) eqn:Hoffers.
  2:{ intros [= <-]. split; [|done].
      intros [_ Hholds%has_offers_spec]. congruence. }
  apply has_offers_spec in Hoffers.
  destruct (formatFlightResults (Object (cast (UIPart.output part))))
    as [result|]; [|done].
  simpl. intros [= <-]. split.
  - intros _. exists result. by repeat split.
  - intros Hnot. destruct Hnot. by split.
Qed.

Lemma transformPart_settled (part part' : UIPart.t) :
  transformPart cast JSON_text part = Normal part' →
  transformPart cast JSON_text part' = Normal part'.
Proof.
  unfold transformPart at 1, formatted.
  destruct (startsWith _ _ && has_offers _) eqn:Hguard.
  2:{ intros [= <-]. unfold transformPart. by rewrite Hguard. }
  destruct (formatFlightResults (Object (cast (UIPart.output part))))
    as [result|]; [|done].
  simpl. intros [= <-]. unfold transformPart. simpl.
  by rewrite andb_false_r.
Qed.

(** X22.  The transformer returns a message for each message, in order,
    with its id, role and metadata and a part for each part.  A static tool
    part whose output is an object with [offers] comes back with the text
    that [formatFlightResults] returns for that output as its output, and the
    same in everything else; every other part comes back as it was. *)
Theorem transformMessages_frame (messages transformed : list UIMessage.t) :
  transformMessages cast JSON_text messages = Normal transformed →
  Forall2 (TransformedMessage cast JSON_text) messages transformed.
Proof.
  intros Hrun%mapM_Normal. eapply Forall2_impl; [exact Hrun|].
  intros msg msg'. unfold transformMessage, TransformedMessage.
  destruct (UIMessage.parts msg) as [parts|] eqn:Hparts.
  - destruct (mapM _ parts) as [parts'|] eqn:Hall; [|done].
    simpl. intros [= <-]. simpl. repeat split.
    apply mapM_Normal in Hall. eapply Forall2_impl; [exact Hall|].
    apply transformPart_result.
  - intros [= <-]. by rewrite Hparts.
Qed.

(** X23.  What the transformer has returned it returns again as it is: a
    result once turned into text is not formatted a second time. *)
Theorem transformMessages_idempotent (messages transformed : list UIMessage.t) :
  transformMessages cast JSON_text messages = Normal transformed →
  transformMessages cast JSON_text transformed = Normal transformed.
Proof.
  intros Hrun%mapM_Normal. apply mapM_Normal.
  induction Hrun as [|msg msg' msgs msgs' Hmsg _ IH]; constructor; [|done].
  clear IH. revert Hmsg. unfold transformMessage.
  destruct (UIMessage.parts msg) as [parts|] eqn:Hparts.
  - destruct (mapM _ parts) as [parts'|] eqn:Hall; [|done].
    simpl. intros [= <-]. simpl.
    assert (mapM (transformPart cast JSON_text) parts' = Normal parts') as ->.
    { apply mapM_Normal in Hall. apply mapM_Normal. clear Hparts.
      induction Hall as [|part part' ps ps' Hpart _ IH]; constructor; [|done].
      by eapply transformPart_settled. }
    done.
  - intros [= <-]. by rewrite Hparts.
Qed.

Lemma transformMessages_missing_price (messages : list UIMessage.t)
    (msg : UIMessage.t) (parts : list UIPart.t) (part : UIPart.t)
    (offers : list Offer.t) (offer : Offer.t) :
  msg ∈ messages → UIMessage.parts msg = Some parts → part ∈ parts →
  isStaticToolUIPart part = true → has_offers (UIPart.output part) = true →
  FlightData.offers (cast (UIPart.output part)) = Some offers →
  offer ∈ offers → Offer.price offer = None →
  transformMessages cast JSON_text messages = Throw.
Proof.
  intros Hmsg Hparts Hpart Hstatic Hoffers Hcast Hoffer Hprice.
  apply (mapM_Throw _ _ msg); [done|]. unfold transformMessage.
  rewrite Hparts.
  rewrite (mapM_Throw _ _ part); [done|done|].
  unfold transformPart, formatted. unfold isStaticToolUIPart in Hstatic.
  rewrite Hstatic, Hoffers. simpl andb. cbv iota.
  by rewrite (formatFlightResults_missing_price _ _ _ Hcast Hoffer Hprice).
Qed.

(** X24.  One flight result with an offer that has no price, in a message
    that the sanitizer and the resolver have let through, makes the
    preparation of the turn of the remote-tool agent throw: no list is
    handed to the model, whatever else the history holds. *)
Theorem FlightAgent_transformed_throws (messages processed : list UIMessage.t)
    (msg : UIMessage.t) (parts : list UIPart.t) (part : UIPart.t)
    (offers : list Offer.t) (offer : Offer.t) :
  snd (FlightAgent_reconcile messages) = Normal processed →
  msg ∈ processed → UIMessage.parts msg = Some parts → part ∈ parts →
  isStaticToolUIPart part = true → has_offers (UIPart.output part) = true →
  FlightData.offers (cast (UIPart.output part)) = Some offers →
  offer ∈ offers → Offer.price offer = None →
  snd (FlightAgent_transformed cast JSON_text messages) = Throw.
Proof.
  intros Hrun Hmsg Hparts Hpart Hstatic Hoffers Hcast Hoffer Hprice.
  unfold FlightAgent_transformed.
  destruct (FlightAgent_reconcile messages) as [effects [processed'|]];
    simpl in Hrun; [|done].
  injection Hrun as ->. simpl.
  by rewrite (transformMessages_missing_price processed msg parts part
                offers offer).
Qed.

End TransformProperties.

End Utils.

(** * The scenarios, run *)

(** Scenario A, through C1: the approved [getWeather] call is executed once,
    its result written once after the call, and returned as the part's
    output. *)
Lemma processToolCalls_approved_scenarioA :
  let part := weatherPart "Yes, confirmed." in
  let messages := [assistantMessage "m1" [part]] in
  let options := {| ctx_messages := messages;
                    ctx_toolCallId := Some "call-1" |} in
  let run := processToolCalls plain_projection shared_APPROVAL strict_host_call
               messages weatherExecutions in
  effects_at (fst run) 0 0
  = Some [ Invoke "getWeather" Paris options;
           Written {| chunk_type := "tool-output-available";
                      chunk_toolCallId := Some "call-1";
                      chunk_output := JString "22C, sunny" |} ]
  ∧ ∃ message' parts' part',
      snd run = Normal [message'] ∧ UIMessage.parts message' = Some parts'
      ∧ parts' = [part'] ∧ UIPart.output part' = JString "22C, sunny".
Proof.
  intros part messages options run.
  destruct (processToolCalls_approved plain_projection shared_APPROVAL
              strict_host_call messages weatherExecutions 0 0
              (assistantMessage "m1" [part]) [part] part getWeather messages
              eq_refl eq_refl eq_refl eq_refl eq_refl eq_refl eq_refl eq_refl)
    as (effects & Hat & _ & Hreturned).
  destruct (Hreturned _ eq_refl)
    as (result & message' & parts' & part' & Hcall & Heffects & Hmessage'
        & Hparts' & Hpart' & Houtput & _).
  injection Hcall as <-. subst effects. split; [exact Hat|].
  injection Hmessage' as <-. injection Hparts' as <-. injection Hpart' as <-.
  by eexists _, _, _.
Defined.

(** Scenario B, through C2: the denied call is not executed, and the denial
    text is written and returned. *)
Lemma processToolCalls_denied_scenarioB :
  let part := weatherPart "No, denied." in
  let messages := [assistantMessage "m1" [part]] in
  let denial := JString "Error: User denied access to tool execution" in
  let run := processToolCalls plain_projection shared_APPROVAL strict_host_call
               messages weatherExecutions in
  effects_at (fst run) 0 0
  = Some [ Written {| chunk_type := "tool-output-available";
                      chunk_toolCallId := Some "call-1";
                      chunk_output := denial |} ]
  ∧ ∃ message' parts' part',
      snd run = Normal [message'] ∧ UIMessage.parts message' = Some parts'
      ∧ parts' = [part'] ∧ UIPart.output part' = denial.
Proof.
  intros part messages denial run.
  assert (YES shared_APPROVAL ≠ NO shared_APPROVAL) as Htokens by discriminate.
  assert (is_Some (weatherExecutions (ModelMessage := UIMessage.t)
                   !! toolName_of part)) as Hown by (by eexists).
  destruct (processToolCalls_denied plain_projection shared_APPROVAL
              strict_host_call messages weatherExecutions 0 0
              (assistantMessage "m1" [part]) [part] part
              Htokens eq_refl eq_refl eq_refl eq_refl Hown eq_refl eq_refl)
    as (Hat & Hreturned & _).
  split; [exact Hat|].
  destruct (Hreturned _ eq_refl)
    as (message' & parts' & part' & Hmessage' & Hparts' & Hpart' & Houtput & _).
  injection Hmessage' as <-. injection Hparts' as <-. injection Hpart' as <-.
  by eexists _, _, _.
Defined.

(** Scenario A among parts that are not decided, through C6: the returned
    list frames the input, and only the decided part differs. *)
Lemma processToolCalls_frame_scenarioA :
  let processed :=
    [ userMessage "m0" "Weather in Paris?";
      assistantMessage "m1"
        [ toolPart "getWeather" "call-0" "output-available" Paris
            (JString "18C, rain");
          textPart "Let me check again.";
          toolPart "getWeather" "call-1" "output-available" Paris
            (JString "22C, sunny");
          toolPart "getLocalTime" "call-7" "output-available" Paris
            (JString "No, denied.") ] ] in
  snd (processToolCalls plain_projection shared_APPROVAL strict_host_call
         mixedHistory weatherExecutions) = Normal processed
  ∧ Forall2
      (FramedMessage shared_APPROVAL
         (weatherExecutions (ModelMessage := UIMessage.t)))
      mixedHistory processed.
Proof.
  intros processed.
  assert (snd (processToolCalls plain_projection shared_APPROVAL
                 strict_host_call mixedHistory weatherExecutions)
          = Normal processed) as Hrun by (vm_compute; reflexivity).
  split; [exact Hrun|].
  exact (processToolCalls_frame plain_projection shared_APPROVAL
           strict_host_call mixedHistory processed weatherExecutions Hrun).
Defined.

(** The approval of a call whose executor answers with the denial text, and
    the denial of the same call, return the same list: the output of the
    denied part is the result of a tool that ran. *)
Lemma denial_reads_as_tool_result :
  let approved :=
    processToolCalls plain_projection shared_APPROVAL strict_host_call
      [assistantMessage "m1" [weatherPart "Yes, confirmed."]] refusingExecutions in
  let denied :=
    processToolCalls plain_projection shared_APPROVAL strict_host_call
      [assistantMessage "m1" [weatherPart "No, denied."]] refusingExecutions in
  (length ∘ invocations) <$> effects_at (fst approved) 0 0 = Some 1%nat
  ∧ invocations <$> effects_at (fst denied) 0 0 = Some []
  ∧ snd denied = snd approved
  ∧ snd denied
    = Normal [ assistantMessage "m1"
                 [toolPart "getWeather" "call-1" "output-available" Paris
                    (JString "Error: User denied access to tool execution")] ].
Proof. by vm_compute. Qed.

(** A denied call of a tool named [toString], resolved by the remote-tool
    agent over its empty registry. *)
Example FlightAgent_reconcile_denied_toString :
  let denial := JString "Error: User denied access to tool execution" in
  FlightAgent_reconcile plain_projection shared_APPROVAL strict_host_call
    [assistantMessage "m1" [toStringPart "No, denied."]]
  = ([[[ Written {| chunk_type := "tool-output-available";
                    chunk_toolCallId := Some "call-3";
                    chunk_output := denial |} ]]],
     Normal [ assistantMessage "m1"
                [toolPart "toString" "call-3" "output-available" Paris denial] ]).
Proof. by vm_compute. Qed.

(** An approved call of a tool named [__proto__]: what the registry holds
    under the name is no function, and the pass rejects with nothing called
    and nothing written. *)
Example FlightAgent_reconcile_approved_proto :
  FlightAgent_reconcile plain_projection shared_APPROVAL strict_host_call
    [ assistantMessage "m1"
        [toolPart "__proto__" "call-6" "output-available" Paris
           (JString "Yes, confirmed.")] ]
  = ([[[]]], Throw).
Proof. by vm_compute. Qed.

(** Through C7: a search result whose one offer has no price. *)
Lemma formatFlightResults_throws_on_missing_price_offer :
  formatFlightResults V8_prototype_text
    (Object (read_flightData (flights_value [offerWithoutPrice_value])))
  = Throw.
Proof.
  apply (formatFlightResults_throws_on_missing_price V8_prototype_text _
           [read_offer offerWithoutPrice_value]
           (read_offer offerWithoutPrice_value));
    [reflexivity | | reflexivity].
  constructor.
Defined.

(** The line of a nonstop flight has ["Arrives: "] between the arrow and the
    time of arrival. *)
Lemma formatFlightResults_scenarioD_no_bare_arrow :
  ∃ text,
    formatFlightResults V8_prototype_text scenarioD = Normal (Text text)
    ∧ includes text "9:00 AM → 11:30 AM" = false.
Proof. eexists. split; [vm_compute; reflexivity|]. by vm_compute. Qed.

(** A price in pounds, through C9: it is printed with the dollar sign. *)
Lemma formatFlightResults_price_GBP :
  ∃ text,
    formatFlightResults V8_prototype_text (flightsOf [offerD "GBP"])
    = Normal (Text text)
    ∧ includes text " - $100" = true.
Proof.
  eexists. split; [vm_compute; reflexivity|].
  match goal with
  | |- includes ?text _ = true =>
      exact (formatFlightResults_price V8_prototype_text
               {| FlightData.totalOffers := Some 1%Z;
                  FlightData.offers := Some [offerD "GBP"];
                  FlightData.dictionaries :=
                    Some {| Dictionaries.carriers :=
                              Some {[ "AB" := "Air Bravo" ]} |} |}
               [offerD "GBP"] (offerD "GBP")
               {| Price.total := Some "100"; Price.currency := Some "GBP" |}
               text eq_refl (list_elem_of_here _ _) eq_refl
               ltac:(discriminate) ltac:(vm_compute; reflexivity))
  end.
Defined.

(** The currency code of a price in pounds is not printed. *)
Lemma formatFlightResults_GBP_as_dollars :
  ∃ text,
    formatFlightResults V8_prototype_text (flightsOf [offerD "GBP"])
    = Normal (Text text)
    ∧ includes text "GBP" = false ∧ includes text "$100" = true.
Proof. eexists. split; [vm_compute; reflexivity|]. by vm_compute. Qed.

(** * The further properties, on the scenarios *)

(** Through X1: the one call of scenario A is that of its approved part. *)
Lemma processToolCalls_invokes_only_approved_scenarioA :
  let messages := [assistantMessage "m1" [weatherPart "Yes, confirmed."]] in
  ∃ message parts part,
    message ∈ messages ∧ UIMessage.parts message = Some parts ∧ part ∈ parts
    ∧ isStaticToolUIPart part = true
    ∧ UIPart.state part = Some "output-available"
    ∧ UIPart.output part = JString "Yes, confirmed."
    ∧ "getWeather" = toolName_of part
    ∧ in_object "getWeather" (weatherExecutions (ModelMessage := UIMessage.t))
      = true
    ∧ Paris = UIPart.input part
    ∧ ∃ modelMessages,
        plain_projection messages = Normal modelMessages
        ∧ {| ctx_messages := messages; ctx_toolCallId := Some "call-1" |}
          = {| ctx_messages := modelMessages;
               ctx_toolCallId := UIPart.toolCallId part |}.
Proof.
  intros messages.
  apply (processToolCalls_invokes_only_approved plain_projection
           shared_APPROVAL strict_host_call messages weatherExecutions
           "getWeather" Paris
           {| ctx_messages := messages; ctx_toolCallId := Some "call-1" |}).
  exists 0%nat, 0%nat. eexists. split; [reflexivity|]. constructor.
Defined.

(** Through X2: the chunk of scenario A announces the output returned. *)
Lemma processToolCalls_chunks_announce_outputs_scenarioA :
  let processed :=
    [ assistantMessage "m1"
        [toolPart "getWeather" "call-1" "output-available" Paris
           (JString "22C, sunny")] ] in
  ∃ i j message' parts' part',
    processed !! i = Some message' ∧ UIMessage.parts message' = Some parts'
    ∧ parts' !! j = Some part'
    ∧ {| chunk_type := "tool-output-available";
         chunk_toolCallId := Some "call-1";
         chunk_output := JString "22C, sunny" |} = chunk_of part'.
Proof.
  intros processed.
  apply (processToolCalls_chunks_announce_outputs plain_projection
           shared_APPROVAL strict_host_call
           [assistantMessage "m1" [weatherPart "Yes, confirmed."]] processed
           weatherExecutions);
    [reflexivity|].
  exists 0%nat, 0%nat. eexists. split; [reflexivity|]. do 2 constructor.
Defined.

(** Through X3: the part of scenario A has changed, and was announced. *)
Lemma processToolCalls_changes_are_announced_scenarioA :
  let part := weatherPart "Yes, confirmed." in
  let part' :=
    toolPart "getWeather" "call-1" "output-available" Paris
      (JString "22C, sunny") in
  performed
    (fst (processToolCalls plain_projection shared_APPROVAL strict_host_call
            [assistantMessage "m1" [part]] weatherExecutions))
    (Written (chunk_of part')).
Proof.
  intros part part'.
  apply (processToolCalls_changes_are_announced plain_projection
           shared_APPROVAL strict_host_call
           [assistantMessage "m1" [part]] [assistantMessage "m1" [part']]
           weatherExecutions 0 0
           (assistantMessage "m1" [part]) (assistantMessage "m1" [part'])
           [part] [part'] part part'
           eq_refl eq_refl eq_refl eq_refl eq_refl eq_refl eq_refl).
  discriminate.
Defined.

(** Through X4: the decided call of a list that the projection rejects, and
    an approved call whose executor rejects. *)
Lemma processToolCalls_rejects_scenarios :
  let part := weatherPart "Yes, confirmed." in
  let unprojected :=
    processToolCalls plain_projection shared_APPROVAL strict_host_call
      unprojectableHistory weatherExecutions in
  let messages := [assistantMessage "m1" [part]] in
  let failed :=
    processToolCalls plain_projection shared_APPROVAL strict_host_call
      messages failingExecutions in
  (snd unprojected = Throw ∧ effects_at (fst unprojected) 1 0 = Some [])
  ∧ (snd failed = Throw
     ∧ effects_at (fst failed) 0 0
       = Some [Invoke "getWeather" Paris
                 {| ctx_messages := messages;
                    ctx_toolCallId := Some "call-1" |}]).
Proof.
  intros part unprojected messages failed. split.
  - apply (processToolCalls_rejects plain_projection shared_APPROVAL
             strict_host_call unprojectableHistory weatherExecutions 1 0
             (assistantMessage "m1" [part]) [part] part getWeather
             eq_refl eq_refl eq_refl eq_refl eq_refl eq_refl eq_refl).
    intros modelMessages Hprojected. discriminate Hprojected.
  - apply (processToolCalls_rejects plain_projection shared_APPROVAL
             strict_host_call messages failingExecutions 0 0
             (assistantMessage "m1" [part]) [part] part (λ _ _, Throw)
             eq_refl eq_refl eq_refl eq_refl eq_refl eq_refl eq_refl).
    reflexivity.
Defined.

(** The list that the projection rejects, run: nothing is invoked and
    nothing is written; the run rejects. *)
Example processToolCalls_unprojectableHistory :
  processToolCalls plain_projection shared_APPROVAL strict_host_call
    unprojectableHistory weatherExecutions
  = ([[]; [[]]], Throw).
Proof. by vm_compute. Qed.

(** Through X5: an approved call of a tool whose key holds no function. *)
Lemma processPart_no_execute_function_empty_slot :
  let part := weatherPart "Yes, confirmed." in
  let result := JString "Error: No execute function found on tool" in
  ∃ part',
    processPart plain_projection shared_APPROVAL strict_host_call
      [assistantMessage "m1" [part]] emptySlotExecutions part
    = ([Written {| chunk_type := "tool-output-available";
                   chunk_toolCallId := Some "call-1";
                   chunk_output := result |}],
       Normal part')
    ∧ UIPart.output part' = result
    ∧ SameButOutput part part'.
Proof.
  intros part result.
  exact (processPart_no_execute_function plain_projection shared_APPROVAL
           strict_host_call [assistantMessage "m1" [part]]
           emptySlotExecutions part eq_refl eq_refl eq_refl eq_refl).
Defined.

(** The weather executor answers with no token, and neither does a member
    of [Object.prototype] that answers at all. *)
Lemma weatherExecutions_no_token (toolName : string)
    (toolInstance : Executor (ModelMessage := UIMessage.t))
    (args : JsValue) (options : ToolCallOptions) (result : JsValue) :
  get strict_host_call weatherExecutions toolName
  = Some (Callable toolInstance) →
  toolInstance args options = Normal result →
  ¬ Token shared_APPROVAL result.
Proof.
  unfold get, weatherExecutions.
  destruct (decide (toolName = "getWeather")) as [->|Hne].
  - rewrite lookup_singleton_eq. intros [= <-] [= <-]. by intros [[=]|[=]].
  - rewrite lookup_singleton_ne by done.
    destruct (inherited toolName); [|done].
    destruct (String.eqb toolName "__proto__"); [done|]. intros [= <-].
    unfold strict_host_call.
    destruct (String.eqb toolName "toString");
      [intros [= <-]; by intros [[=]|[=]]|].
    destruct (String.eqb toolName "constructor").
    { intros [= <-]. destruct args; by intros [[=]|[=]]. }
    destruct (String.eqb toolName "isPrototypeOf"); [|done].
    destruct args; intros [= <-]; by intros [[=]|[=]].
Qed.

(** Through X6: a second pass over the result of scenario A. *)
Lemma processToolCalls_second_pass_scenarioA :
  let processed :=
    [ assistantMessage "m1"
        [toolPart "getWeather" "call-1" "output-available" Paris
           (JString "22C, sunny")] ] in
  let again :=
    processToolCalls plain_projection shared_APPROVAL strict_host_call
      processed weatherExecutions in
  snd again = Normal processed ∧ quiet (fst again).
Proof.
  intros processed again.
  apply (processToolCalls_second_pass plain_projection shared_APPROVAL
           strict_host_call
           [assistantMessage "m1" [weatherPart "Yes, confirmed."]] processed
           weatherExecutions weatherExecutions_no_token).
  - intros [H|H]; discriminate H.
  - intros [H|H]; discriminate H.
  - reflexivity.
Defined.

(** Through X7: an executor that answers ["Yes, confirmed."] is called at
    every pass. *)
Lemma processPart_reexecutes_token_result_echo :
  let part := weatherPart "Yes, confirmed." in
  let messages := [assistantMessage "m1" [part]] in
  snd (processPart plain_projection shared_APPROVAL strict_host_call
         messages echoingExecutions part) = Normal part
  ∧ invocations
      (fst (processPart plain_projection shared_APPROVAL strict_host_call
              messages echoingExecutions part))
    = [Invoke "getWeather" Paris
         {| ctx_messages := messages; ctx_toolCallId := Some "call-1" |}].
Proof.
  intros part messages.
  exact (processPart_reexecutes_token_result plain_projection shared_APPROVAL
           strict_host_call messages messages echoingExecutions part
           (λ _ _, Normal (JString "Yes, confirmed.")) messages messages
           eq_refl eq_refl eq_refl eq_refl eq_refl eq_refl eq_refl).
Defined.

(** Through X8: what the fixed-tool agent hands on for a history with a
    cut-off call and a decided one. *)
Lemma ChatAgent_reconcile_sanitized_interrupted :
  let processed :=
    [ userMessage "m0" "What is the weather in Paris?";
      assistantMessage "m1"
        [toolPart "getWeather" "call-1" "output-available" Paris
           (JString "22C, sunny")] ] in
  cleanupMessages processed = processed.
Proof.
  intros processed.
  exact (ChatAgent_reconcile_sanitized plain_projection shared_APPROVAL
           strict_host_call interruptedHistory processed weatherExecutions
           eq_refl).
Defined.

(** Through X10: the decided call of the same history is kept. *)
Lemma cleanupMessages_keeps_settled_interrupted :
  assistantMessage "m1" [weatherPart "Yes, confirmed."]
  ∈ cleanupMessages interruptedHistory.
Proof.
  apply cleanupMessages_keeps_settled.
  - vm_compute. do 2 constructor. constructor.
  - intros parts part [= <-] Hin _.
    apply list_elem_of_singleton in Hin as ->. split; discriminate.
Defined.

(** Through X12: a duration with seconds. *)
Lemma formatDuration_hours_minutes_PT2H30M15S :
  formatDuration "PT2H30M15S" = "2h 30m".
Proof.
  apply (formatDuration_hours_minutes (Some "2") (Some "30") "15S").
  - by split.
  - by split.
  - discriminate.
Defined.

(** Through X13: a duration of days. *)
Lemma formatDuration_without_time_P3D : formatDuration "P3D" = "P3D".
Proof. apply formatDuration_without_time. reflexivity. Defined.

(** Through X14: nine in the morning, with seconds and a zone. *)
Lemma formatTime_12_hour_morning :
  formatTime "2024-01-01T09:00:00Z" = "9:00 AM".
Proof.
  apply (formatTime_12_hour "2024" "01" "01" "00" ":00Z" 9);
    [by split | by split | by split | lia | by split].
Defined.

(** Through X15: the departure of scenario D with an airport for a place. *)
Lemma formatTimeOf_place_at_time_JFK :
  formatTimeOf (Some "JFK at 2024-01-01T09:00")
  = Normal (formatTime "2024-01-01T09:00").
Proof.
  apply (formatTimeOf_place_at_time "JFK" "2024-01-01T09:00");
    [reflexivity | reflexivity | discriminate].
Defined.

(** Through X16: a bare time stamp. *)
Lemma formatTimeOf_without_place_bare :
  formatTimeOf (Some "2024-01-01T11:30")
  = Normal (formatTime "2024-01-01T11:30").
Proof. apply formatTimeOf_without_place. reflexivity. Defined.

(** Through X17: scenario D returns, so nothing it needs is missing. *)
Lemma formatFlightResults_returns_only_complete_scenarioD :
  Complete scenarioD.
Proof.
  eapply (formatFlightResults_returns_only_complete V8_prototype_text).
  vm_compute. reflexivity.
Defined.

(** Through X18: the first line of scenario D. *)
Lemma formatFlightResults_headline_scenarioD :
  ∃ text,
    formatFlightResults V8_prototype_text scenarioD = Normal (Text text)
    ∧ startsWith text ("Found 1 flights:" +:+ newline) = true.
Proof.
  eexists. split; [vm_compute; reflexivity|].
  match goal with
  | |- startsWith ?text _ = true =>
      exact (proj1 (formatFlightResults_headline V8_prototype_text
                      (read_flightData (flights_value [offerD_value]))
                      [read_offer offerD_value] text eq_refl
                      ltac:(vm_compute; reflexivity)))
  end.
Defined.

(** Through X19: an offer with a connection of two segments. *)
Lemma formatFlightResults_stops_connection :
  ∃ text,
    formatFlightResults V8_prototype_text
      (Object (read_flightData (flights_value [connection_value])))
    = Normal (Text text)
    ∧ includes text " - €420 (2 stops)" = true.
Proof.
  eexists. split; [vm_compute; reflexivity|].
  match goal with
  | |- includes ?text _ = true =>
      exact (formatFlightResults_stops V8_prototype_text
               (read_flightData (flights_value [connection_value]))
               [read_offer connection_value] (read_offer connection_value)
               {| Price.total := Some "420"; Price.currency := Some "EUR" |}
               (read_itinerary connectionItinerary_value)
               text eq_refl (list_elem_of_here _ _) eq_refl
               ltac:(vm_compute; constructor) ltac:(discriminate)
               ltac:(vm_compute; reflexivity))
  end.
Defined.

(** Through X20: the nonstop flight of scenario D. *)
Lemma formatFlightResults_nonstop_scenarioD :
  ∃ text,
    formatFlightResults V8_prototype_text scenarioD = Normal (Text text)
    ∧ includes text
        "  Departs: 9:00 AM → Arrives: 11:30 AM (2h 30m, nonstop)" = true.
Proof.
  eexists. split; [vm_compute; reflexivity|].
  match goal with
  | |- includes ?text _ = true =>
      exact (formatFlightResults_nonstop V8_prototype_text
               (read_flightData (flights_value [offerD_value]))
               [offerD "EUR"] (offerD "EUR")
               {| Itinerary.duration := Some "PT2H30M";
                  Itinerary.segments := Some [segmentD] |}
               segmentD "PT2H30M" "9:00 AM" "11:30 AM" text
               eq_refl (list_elem_of_here _ _) (list_elem_of_here _ _)
               eq_refl eq_refl eq_refl eq_refl
               ltac:(vm_compute; reflexivity))
  end.
Defined.

(** Through X21: the offer of scenario D goes by the name of its carrier. *)
Lemma formatFlightResults_airline_scenarioD :
  ∃ text,
    formatFlightResults V8_prototype_text scenarioD = Normal (Text text)
    ∧ includes text "• Air Bravo " = true.
Proof.
  eexists. split; [vm_compute; reflexivity|].
  match goal with
  | |- includes ?text _ = true =>
      apply (formatFlightResults_airline V8_prototype_text
               (read_flightData (flights_value [offerD_value]))
               [offerD "EUR"] (offerD "EUR") "Air Bravo" text)
  end.
  - reflexivity.
  - constructor.
  - discriminate.
  - apply (NamedAs_carrier _ _ "AB" []);
      [reflexivity | discriminate | vm_compute; reflexivity | discriminate].
  - vm_compute; reflexivity.
Defined.

(** Through X22: a history with the result of scenario D, transformed. *)
Lemma transformMessages_frame_scenarioD :
  let text :=
    String.concat newline
      [ "Found 1 flights:" +:+ newline;
        "• Air Bravo AB123 - €100";
        "  Departs: 9:00 AM → Arrives: 11:30 AM (2h 30m, nonstop)";
        "  Seats available: 3";
        "" ] in
  let transformed :=
    [ userMessage "m0" "Flights from JFK to CDG?";
      assistantMessage "m3"
        [ textPart "Here is what I found.";
          toolPart "searchFlights" "call-4" "output-available"
            (JObject [("origin", JString "JFK"); ("destination", JString "CDG")])
            (JString text);
          bookingPart ] ] in
  transformMessages V8_prototype_text read_flightData raw_text
    (searchHistory [offerD_value]) = Normal transformed
  ∧ Forall2 (TransformedMessage V8_prototype_text read_flightData raw_text)
      (searchHistory [offerD_value]) transformed.
Proof.
  intros text transformed.
  assert (transformMessages V8_prototype_text read_flightData raw_text
            (searchHistory [offerD_value]) = Normal transformed) as Hrun
    by (vm_compute; reflexivity).
  split; [exact Hrun|].
  exact (transformMessages_frame V8_prototype_text read_flightData raw_text
           (searchHistory [offerD_value]) transformed Hrun).
Defined.

(** Through X23: the same history, transformed twice. *)
Lemma transformMessages_idempotent_scenarioD :
  ∃ transformed,
    transformMessages V8_prototype_text read_flightData raw_text
      (searchHistory [offerD_value]) = Normal transformed
    ∧ transformMessages V8_prototype_text read_flightData raw_text transformed
      = Normal transformed.
Proof.
  eexists. split; [vm_compute; reflexivity|].
  match goal with
  | |- transformMessages _ _ _ ?transformed = _ =>
      exact (transformMessages_idempotent V8_prototype_text read_flightData
               raw_text (searchHistory [offerD_value]) transformed
               ltac:(vm_compute; reflexivity))
  end.
Defined.

(** Through X24: a search that returned an offer without a price. *)
Lemma FlightAgent_transformed_throws_without_price :
  snd (FlightAgent_transformed plain_projection shared_APPROVAL
         strict_host_call V8_prototype_text read_flightData raw_text
         (searchHistory [offerD_value; offerWithoutPrice_value]))
  = Throw.
Proof.
  apply (FlightAgent_transformed_throws plain_projection shared_APPROVAL
           strict_host_call V8_prototype_text read_flightData raw_text
           (searchHistory [offerD_value; offerWithoutPrice_value])
           (searchHistory [offerD_value; offerWithoutPrice_value])
           (assistantMessage "m3"
              [ textPart "Here is what I found.";
                searchPart
                  (flights_value [offerD_value; offerWithoutPrice_value]);
                bookingPart ])
           [ textPart "Here is what I found.";
             searchPart
               (flights_value [offerD_value; offerWithoutPrice_value]);
             bookingPart ]
           (searchPart (flights_value [offerD_value; offerWithoutPrice_value]))
           [read_offer offerD_value; read_offer offerWithoutPrice_value]
           (read_offer offerWithoutPrice_value));
    try reflexivity.
  - vm_compute. do 2 constructor.
  - vm_compute. do 2 constructor.
  - vm_compute. do 2 constructor.
Defined.
